(** * Persistence sync of the sandbox to R2 (gateway/sync.ts)

    A shallow embedding of [syncToR2] and of the helpers it is built from
    ([truncateOutput], [formatCommandResult], [runCommandWithDetails],
    [checkConfigPath], [collectFilesystemContext], [shellEscapeArg]).

    JavaScript strings are modelled by [string]; one [ascii] stands for one
    code unit.  The sandbox is an interface ([Sandbox]) whose operations act on
    an abstract sandbox state; asynchronous code is written in a small monad
    whose completions are the three completions of a JavaScript statement
    list: normal, [return] and [throw]. *)

From Stdlib Require Import String Ascii List ZArith NArith Bool Lia.
Import ListNotations.

Local Open Scope Z_scope.
Local Open Scope string_scope.

(** ** JavaScript string primitives *)

Module JsString.

(** The code unit of the double quote and of the line feed. *)
Definition dquote : string := String "034"%char EmptyString.
Definition newline : string := String "010"%char EmptyString.

(** [s.length] *)
Definition jsLength (s : string) : Z := Z.of_nat (String.length s).

(** [s.slice(0, n)] for [0 <= n]. *)
Fixpoint take (n : nat) (s : string) : string :=
  match n, s with
  | O, _ => EmptyString
  | _, EmptyString => EmptyString
  | S n', String c t => String c (take n' t)
  end.

Definition slice0 (n : Z) (s : string) : string := take (Z.to_nat n) s.

(** A string is truthy when it is not empty. *)
Definition nonEmpty (s : string) : bool :=
  match s with EmptyString => false | String _ _ => true end.

(** [hay.includes(needle)] *)
Fixpoint includes (hay needle : string) : bool :=
  if String.prefix needle hay then true
  else match hay with
       | EmptyString => false
       | String _ t => includes t needle
       end.

(** WhiteSpace and LineTerminator code units below 256: TAB, LF, VT, FF, CR,
    SP and NBSP. *)
Definition isWhiteSpace (c : ascii) : bool :=
  let n := nat_of_ascii c in
  ((9 <=? n)%nat && (n <=? 13)%nat) || (n =? 32)%nat || (n =? 160)%nat.

Fixpoint trimStart (s : string) : string :=
  match s with
  | EmptyString => EmptyString
  | String c t => if isWhiteSpace c then trimStart t else s
  end.

Fixpoint trimEnd (s : string) : string :=
  match s with
  | EmptyString => EmptyString
  | String c t =>
      match trimEnd t with
      | EmptyString => if isWhiteSpace c then EmptyString else String c EmptyString
      | t' => String c t'
      end
  end.

(** [s.trim()] *)
Definition trim (s : string) : string := trimEnd (trimStart s).

(** [s.replace(/'/g, r)] *)
Fixpoint replaceQuote (r s : string) : string :=
  match s with
  | EmptyString => EmptyString
  | String c t =>
      if Ascii.eqb c "'"%char then r ++ replaceQuote r t
      else String c (replaceQuote r t)
  end.

(** Atoms of an anchored regular expression: [\d] and a literal. *)
Inductive Atom : Type :=
| Digit
| Lit (c : ascii).

Definition isDigit (c : ascii) : bool :=
  let n := nat_of_ascii c in (48 <=? n)%nat && (n <=? 57)%nat.

Definition atomMatches (a : Atom) (c : ascii) : bool :=
  match a with
  | Digit => isDigit c
  | Lit l => Ascii.eqb l c
  end.

(** [/^a1 a2 ... an/] tested on [s]: the atoms match the first code units. *)
Fixpoint matchAnchored (p : list Atom) (s : string) : bool :=
  match p, s with
  | [], _ => true
  | _ :: _, EmptyString => false
  | a :: p', String c t => atomMatches a c && matchAnchored p' t
  end.

End JsString.

Import JsString.

(** ** cli.ts *)

(** [shellEscapeArg]: single-quote wrapping, every quote becoming ['\'']. *)
Definition shellEscapeArg (value : string) : string :=
  "'" ++ replaceQuote "'\''" value ++ "'".

(** ** Data model *)

(** A thrown value: an [Error] instance with its message, or any other
    value. *)
Inductive Exn : Type :=
| ErrorObj (message : string)
| OtherValue.

(** [err instanceof Error ? err.message : 'Unknown error'] *)
Definition errorMessage (err : Exn) : string :=
  match err with
  | ErrorObj m => m
  | OtherValue => "Unknown error"
  end.

(** The settlement of an awaited promise. *)
Inductive Outcome (A : Type) : Type :=
| Ok (a : A)
| Threw (e : Exn).
Arguments Ok {A} a.
Arguments Threw {A} e.

(** What [proc.getLogs()] resolves to; either stream may be undefined. *)
Record Logs : Type := mkLogs {
  logs_stdout : option string;
  logs_stderr : option string
}.

Record SyncResult : Type := mkSyncResult {
  success : bool;
  lastSync : option string;
  error : option string;
  details : option string
}.

Record CommandResult : Type := mkCommandResult {
  command : string;
  status : string;
  exitCode : option Z;
  stdout : string;
  stderr : string;
  durationMs : Z;
  didComplete : bool
}.

(** [ConfigCheckResult extends CommandResult]; [exists_] is the field
    [exists]. *)
Record ConfigCheckResult : Type := mkConfigCheckResult {
  base : CommandResult;
  path : string;
  exists_ : bool
}.

(** The R2 part of [MoltbotEnv] (types.ts); every field is optional. *)
Record MoltbotEnv : Type := mkEnv {
  R2_ACCESS_KEY_ID : option string;
  R2_SECRET_ACCESS_KEY : option string;
  R2_BUCKET_NAME : option string;
  CF_ACCOUNT_ID : option string
}.

(** Truthiness of an optional string: defined and not empty. *)
Definition truthy (v : option string) : bool :=
  match v with
  | Some s => nonEmpty s
  | None => false
  end.

(** [a ?? d] *)
Definition orElse (a : option string) (d : string) : string :=
  match a with Some s => s | None => d end.

(** [a || b] on optional strings. *)
Definition firstTruthy (a : option string) (b : string) : string :=
  match a with
  | Some s => if nonEmpty s then s else b
  | None => b
  end.

(** The values handed to [JSON.stringify]. *)
#[local] Set Warnings "-register-all".
Inductive Json : Type :=
| JUndefined
| JNull
| JBool (b : bool)
| JNum (n : Z)
| JStr (s : string)
| JArr (xs : list Json)
| JObj (fields : list (string * Json)).

Definition CONFIG_CHECK_TIMEOUT_MS : Z := 5000.
Definition RSYNC_CHECK_TIMEOUT_MS : Z := 5000.
Definition POLL_INTERVAL_MS : Z := 200.
Definition MAX_LOG_CHARS : Z := 2000.
Definition OPENCLAW_CONFIG_PATH : string := "/root/.openclaw/openclaw.json".
Definition CLAWDBOT_CONFIG_PATH : string := "/root/.clawdbot/clawdbot.json".

Definition truncationMarker : string := newline ++ "...[truncated]".

Definition truncateOutput (value : string) : string :=
  if (jsLength value <=? MAX_LOG_CHARS)%Z then value
  else slice0 MAX_LOG_CHARS value ++ truncationMarker.

Definition formatCommandResultFields (result : CommandResult)
  : list (string * Json) :=
  [ ("command", JStr (command result));
    ("status", JStr (status result));
    ("exitCode", match exitCode result with Some n => JNum n | None => JNull end);
    ("didComplete", JBool (didComplete result));
    ("durationMs", JNum (durationMs result));
    ("stdout", JStr (truncateOutput (stdout result)));
    ("stderr", JStr (truncateOutput (stderr result))) ].

Definition formatCommandResult (result : CommandResult) : Json :=
  JObj (formatCommandResultFields result).

(** [{ result?: CommandResult; error?: string }] *)
Record FsContext : Type := mkFsContext {
  fs_result : option CommandResult;
  fs_error : option string
}.

(** ** The sandbox and the world *)

(** What a collaborator answers: its value, the sandbox state it leaves and
    the milliseconds the call took. *)
Record Reply (St A : Type) : Type := mkReply {
  value : A;
  next : St;
  took : N
}.
Arguments mkReply {St A} value next took.
Arguments value {St A} r.
Arguments next {St A} r.
Arguments took {St A} r.

(** The collaborators of sync.ts over a sandbox state [St] and process
    handles [Proc].  [startProcess] and [getLogs] are the remote process API
    of the sandbox; [procStatus] and [procExitCode] read the fields [status]
    and [exitCode] of a handle; [elapse] is what the sandbox does while the
    worker sleeps. *)
Record Sandbox (St Proc : Type) : Type := mkSandbox {
  startProcess : string -> St -> Reply St (Outcome Proc);
  getLogs : Proc -> St -> Reply St (Outcome Logs);
  procStatus : Proc -> St -> string;
  procExitCode : Proc -> St -> option Z;
  elapse : Z -> St -> St;
  (** gateway/utils.ts is not among the sources: [waitForProcess] is taken as
      it comes, with its optional third argument. *)
  waitForProcess : Proc -> Z -> option Z -> St -> Reply St (Outcome unit);
  (** Modelled from the spec: the storage mount collaborator of gateway/r2.ts,
      [mount(credentials) -> boolean], true meaning that the mount point is
      ready. *)
  mountR2Storage : MoltbotEnv -> St -> Reply St bool
}.
Arguments startProcess {St Proc} s cmd st.
Arguments getLogs {St Proc} s p st.
Arguments procStatus {St Proc} s p st.
Arguments procExitCode {St Proc} s p st.
Arguments elapse {St Proc} s ms st.
Arguments waitForProcess {St Proc} s p timeoutMs pollMs st.
Arguments mountR2Storage {St Proc} s env st.

(** The calls made to the collaborators, in order. *)
Inductive Call (Proc : Type) : Type :=
| CallMount (env : MoltbotEnv)
| CallStartProcess (cmd : string)
| CallWaitForProcess (p : Proc) (timeoutMs : Z) (pollMs : option Z)
| CallGetLogs (p : Proc).
Arguments CallMount {Proc} env.
Arguments CallStartProcess {Proc} cmd.
Arguments CallWaitForProcess {Proc} p timeoutMs pollMs.
Arguments CallGetLogs {Proc} p.

(** The world of one invocation: the worker's clock ([Date.now()]), the
    calls made so far and the state of the sandbox. *)
Record World (St Proc : Type) : Type := mkWorld {
  clock : Z;
  calls : list (Call Proc);
  sb : St
}.
Arguments mkWorld {St Proc} clock calls sb.
Arguments clock {St Proc} w.
Arguments calls {St Proc} w.
Arguments sb {St Proc} w.

(** The completion of a statement list inside a function returning [R]. *)
Inductive Completion (R A : Type) : Type :=
| Normal (a : A)
| Return (r : R)
| Throw (e : Exn).
Arguments Normal {R A} a.
Arguments Return {R A} r.
Arguments Throw {R A} e.

Section Monad.

Context {St Proc : Type}.

Definition M (R A : Type) : Type :=
  World St Proc -> Completion R A * World St Proc.

Definition ret {R A} (a : A) : M R A := fun w => (Normal a, w).

(** [return r;] *)
Definition return_ {R A} (r : R) : M R A := fun w => (Return r, w).

Definition bind {R A B} (m : M R A) (k : A -> M R B) : M R B :=
  fun w =>
    match m w with
    | (Normal a, w') => k a w'
    | (Return r, w') => (Return r, w')
    | (Throw e, w') => (Throw e, w')
    end.

(** [try { body } catch (err) { handler }] *)
Definition tryCatch {R A} (body : M R A) (handler : Exn -> M R A) : M R A :=
  fun w =>
    match body w with
    | (Throw e, w') => handler e w'
    | other => other
    end.

(** A promise: run from a world, it settles and leaves a world. *)
Definition Promise (A : Type) : Type :=
  World St Proc -> Outcome A * World St Proc.

(** The promise of an async function whose body is [body]: fulfilled with
    what the body returns, rejected with what it throws. *)
Definition settle {A} (body : M A A) : Promise A :=
  fun w =>
    match body w with
    | (Normal a, w') => (Ok a, w')
    | (Return a, w') => (Ok a, w')
    | (Throw e, w') => (Threw e, w')
    end.

(** [await p] *)
Definition await {R A} (p : Promise A) : M R A :=
  fun w =>
    match p w with
    | (Ok a, w') => (Normal a, w')
    | (Threw e, w') => (Throw e, w')
    end.

(** [await p] for a promise that is always fulfilled. *)
Definition awaitValue {R A} (p : World St Proc -> A * World St Proc)
  : M R A :=
  fun w => let (a, w') := p w in (Normal a, w').

(** A call to a collaborator: it is recorded, the sandbox moves to the state
    the collaborator leaves and the clock advances by the time the call
    took. *)
Definition remote {A} (c : Call Proc) (op : St -> Reply St A)
  (w : World St Proc) : A * World St Proc :=
  let r := op (sb w) in
  (value r,
   mkWorld (clock w + Z.of_N (took r)) (calls w ++ [c]) (next r)).

(** [Date.now()] *)
Definition Date_now {R} : M R Z := fun w => (Normal (clock w), w).

End Monad.

Notation "x <- c1 ;; c2" := (bind c1 (fun x => c2))
  (at level 61, c1 at next level, right associativity).
Notation "c1 ;;; c2" := (bind c1 (fun _ => c2))
  (at level 61, right associativity).

(** ** sync.ts *)

Section Sync.

Context {St Proc : Type}.
Variable sandbox : Sandbox St Proc.
(** [R2_MOUNT_PATH] of config.ts and the built-in [JSON.stringify(v, null,
    indent)]. *)
Variable R2_MOUNT_PATH : string.
Variable JSON_stringify : Json -> Z -> string.

(** [sandbox.startProcess(cmd)], [waitForProcess(proc, timeoutMs, pollMs)],
    [proc.getLogs()] and [mountR2Storage(sandbox, env)] as promises. *)
Definition sandbox_startProcess (cmd : string)
  : Promise (St := St) (Proc := Proc) Proc :=
  remote (CallStartProcess cmd) (startProcess sandbox cmd).

Definition call_waitForProcess (proc : Proc) (timeoutMs : Z)
  (pollMs : option Z) : Promise unit :=
  remote (CallWaitForProcess proc timeoutMs pollMs)
         (waitForProcess sandbox proc timeoutMs pollMs).

Definition proc_getLogs (proc : Proc) : Promise Logs :=
  remote (CallGetLogs proc) (getLogs sandbox proc).

Definition call_mountR2Storage (env : MoltbotEnv) (w : World St Proc)
  : bool * World St Proc :=
  remote (CallMount env) (mountR2Storage sandbox env) w.

(** [sleep(ms)]: the clock advances by [ms] while the sandbox goes on. *)
Definition sleep (ms : Z) (w : World St Proc) : World St Proc :=
  mkWorld (clock w + ms) (calls w) (elapse sandbox ms (sb w)).

Definition isActive (st : string) : bool :=
  String.eqb st "running" || String.eqb st "starting".

(** The condition of the polling loop of [runCommandWithDetails]. *)
Definition stillPolling (proc : Proc) (deadline : Z) (w : World St Proc) : bool :=
  isActive (procStatus sandbox proc (sb w)) && (clock w <? deadline)%Z.

(** [while (cond) await sleep(POLL_INTERVAL_MS)], unrolled [fuel] times. *)
Fixpoint pollFuel (fuel : nat) (proc : Proc) (deadline : Z) (w : World St Proc) : World St Proc :=
  if stillPolling proc deadline w then
    match fuel with
    | O => w
    | S fuel' => pollFuel fuel' proc deadline (sleep POLL_INTERVAL_MS w)
    end
  else w.

(** The loop itself: every round moves the clock 200 ms towards the
    deadline, so the milliseconds left bound the number of rounds. *)
Definition pollLoop (proc : Proc) (deadline : Z) (w : World St Proc) : World St Proc :=
  pollFuel (Z.to_nat (deadline - clock w)) proc deadline w.

Definition isNumber (v : option Z) : bool :=
  match v with Some _ => true | None => false end.

Definition exitCodeIs (v : option Z) (n : Z) : bool :=
  match v with Some m => (m =? n)%Z | None => false end.

(** What [runCommandWithDetails] returns, from the logs it fetched and the
    world it reads [proc.status], [proc.exitCode] and [Date.now()] in. *)
Definition commandResultOf (command : string) (startedAt : Z) (proc : Proc)
  (logs : Logs) (w : World St Proc) : CommandResult :=
  let st := procStatus sandbox proc (sb w) in
  let ec := procExitCode sandbox proc (sb w) in
  let didComplete :=
    negb (String.eqb st "running") && negb (String.eqb st "starting")
    && isNumber ec in
  {| command := command;
     status := st;
     exitCode := ec;
     stdout := orElse (logs_stdout logs) EmptyString;
     stderr := orElse (logs_stderr logs) EmptyString;
     durationMs := clock w - startedAt;
     didComplete := didComplete |}.

Definition runCommandWithDetails (command : string) (timeoutMs : Z)
  : Promise CommandResult :=
  settle (
    startedAt <- Date_now ;;
    proc <- await (sandbox_startProcess command) ;;
    await (call_waitForProcess proc timeoutMs (Some POLL_INTERVAL_MS)) ;;;
    let deadline := startedAt + timeoutMs in
    (fun w => (Normal tt, pollLoop proc deadline w)) ;;;
    logs <- await (proc_getLogs proc) ;;
    (fun w => (Return (commandResultOf command startedAt proc logs w), w))).

Definition configCheckCommand (path : string) : string :=
  "sh -lc " ++ dquote ++ "stat -c '%F %s %n' " ++ shellEscapeArg path ++ dquote.

Definition checkConfigPath (path : string) : Promise ConfigCheckResult :=
  settle (
    let command := configCheckCommand path in
    result <- await (runCommandWithDetails command CONFIG_CHECK_TIMEOUT_MS) ;;
    let exists_ :=
      didComplete result && exitCodeIs (exitCode result) 0
      && includes (stdout result) path in
    return_ {| base := result; path := path; exists_ := exists_ |}).

Definition filesystemContextCommand : string :=
  "sh -lc " ++ dquote ++ "pwd; id; " ++
  "echo '--- /root/.openclaw ---'; ls -la /root/.openclaw 2>&1 || true; " ++
  "echo '--- /root/.clawdbot ---'; ls -la /root/.clawdbot 2>&1 || true" ++ dquote.

Definition collectFilesystemContext : Promise FsContext :=
  settle (
    let command := filesystemContextCommand in
    tryCatch
      (result <- await (runCommandWithDetails command CONFIG_CHECK_TIMEOUT_MS) ;;
       return_ {| fs_result := Some result; fs_error := None |})
      (fun err =>
         return_ {| fs_result := None; fs_error := Some (errorMessage err) |})).

Definition buildConfigCheckDetails (checks : list ConfigCheckResult)
  (fsContext : FsContext) : string :=
  JSON_stringify
    (JObj
       [ ("triedPaths", JArr (map (fun check => JStr (path check)) checks));
         ("checks",
          JArr (map (fun check =>
                       JObj (("path", JStr (path check))
                             :: ("exists", JBool (exists_ check))
                             :: formatCommandResultFields (base check)))
                    checks));
         ("fsContext",
          match fs_result fsContext with
          | Some r => formatCommandResult r
          | None => JUndefined
          end);
         ("fsContextError",
          match fs_error fsContext with
          | Some e => JStr e
          | None => JUndefined
          end) ])
    2.

Definition buildRsyncCheckDetails (result : CommandResult) : string :=
  JSON_stringify (JObj [ ("check", formatCommandResult result) ]) 2.

(** The single shell pipeline of the sync, for the chosen [configDir]. *)
Definition syncCmd (configDir : string) : string :=
  "rsync -r --no-times --delete --exclude='*.lock' --exclude='*.log' --exclude='*.tmp' "
    ++ configDir ++ "/ " ++ R2_MOUNT_PATH ++ "/openclaw/ && " ++
  "if [ -d /root/clawd ]; then rsync -r --no-times --delete --exclude='skills' /root/clawd/ "
    ++ R2_MOUNT_PATH ++ "/workspace/; fi && " ++
  "if [ -d /root/clawd ]; then rsync -r --no-times --delete --exclude='skills' /root/clawd/ "
    ++ R2_MOUNT_PATH ++ "/clawd/; fi && " ++
  "if [ -d /root/clawd/skills ]; then rsync -r --no-times --delete /root/clawd/skills/ "
    ++ R2_MOUNT_PATH ++ "/skills/; fi && " ++
  "date -Iseconds > " ++ R2_MOUNT_PATH ++ "/.last-sync".

Definition markerReadCmd : string := "cat " ++ R2_MOUNT_PATH ++ "/.last-sync".

(** [/^\d{4}-\d{2}-\d{2}/] *)
Definition DATE_PREFIX : list Atom :=
  [ Digit; Digit; Digit; Digit; Lit "-"; Digit; Digit; Lit "-"; Digit; Digit ].

(** [lastSync && lastSync.match(/^\d{4}-\d{2}-\d{2}/)] *)
Definition markerVerified (lastSync : option string) : bool :=
  match lastSync with
  | Some s => nonEmpty s && matchAnchored DATE_PREFIX s
  | None => false
  end.

Definition failure (error : string) (details : option string) : SyncResult :=
  {| success := false; lastSync := None; error := Some error;
     details := details |}.

(** The first [try] of [syncToR2]: which config file exists, new path
    first.  Its normal value is [configDir]. *)
Definition configStage : M SyncResult string :=
  tryCatch
    (checkNew <- await (checkConfigPath OPENCLAW_CONFIG_PATH) ;;
     if exists_ checkNew then ret "/root/.openclaw"
     else
       checkLegacy <- await (checkConfigPath CLAWDBOT_CONFIG_PATH) ;;
       if exists_ checkLegacy then ret "/root/.clawdbot"
       else if negb (didComplete (base checkNew))
               || negb (didComplete (base checkLegacy)) then
         fsContext <- await collectFilesystemContext ;;
         return_
           (failure "Sync aborted: config check did not complete"
              (Some (buildConfigCheckDetails [checkNew; checkLegacy] fsContext)))
       else
         fsContext <- await collectFilesystemContext ;;
         return_
           (failure "Sync aborted: no config file found"
              (Some (buildConfigCheckDetails [checkNew; checkLegacy] fsContext))))
    (fun err =>
       return_ (failure "Failed to verify source files"
                  (Some (errorMessage err)))).

Definition rsyncCheckCommand : string :=
  "sh -lc " ++ dquote ++ "command -v rsync" ++ dquote.

(** The second [try]: rsync is available and healthy. *)
Definition rsyncCheckStage : M SyncResult unit :=
  tryCatch
    (rsyncCheck <- await (runCommandWithDetails rsyncCheckCommand
                            RSYNC_CHECK_TIMEOUT_MS) ;;
     if negb (didComplete rsyncCheck) then
       return_ (failure "Sync aborted: rsync check did not complete"
                  (Some (buildRsyncCheckDetails rsyncCheck)))
     else if negb (exitCodeIs (exitCode rsyncCheck) 0)
             || String.eqb (trim (stdout rsyncCheck)) EmptyString then
       return_ (failure "Sync aborted: rsync is not available"
                  (Some (buildRsyncCheckDetails rsyncCheck)))
     else ret tt)
    (fun err =>
       return_ (failure "Sync aborted: rsync check failed"
                  (Some (errorMessage err)))).

(** The body of the third [try]: the pipeline, then the marker read back. *)
Definition pipelineBody (configDir : string) : M SyncResult SyncResult :=
  proc <- await (sandbox_startProcess (syncCmd configDir)) ;;
  await (call_waitForProcess proc 30000 None) ;;;
  timestampProc <- await (sandbox_startProcess markerReadCmd) ;;
  await (call_waitForProcess timestampProc 5000 None) ;;;
  timestampLogs <- await (proc_getLogs timestampProc) ;;
  let lastSync := option_map trim (logs_stdout timestampLogs) in
  if markerVerified lastSync then
    return_ {| success := true; lastSync := lastSync; error := None;
               details := None |}
  else
    logs <- await (proc_getLogs proc) ;;
    return_
      (failure "Sync failed"
         (Some (firstTruthy (logs_stderr logs)
                  (firstTruthy (logs_stdout logs)
                     "No timestamp file created")))).

Definition pipelineStage (configDir : string) : M SyncResult SyncResult :=
  tryCatch (pipelineBody configDir)
    (fun err => return_ (failure "Sync error" (Some (errorMessage err)))).

Definition credentialsMissing (env : MoltbotEnv) : bool :=
  negb (truthy (R2_ACCESS_KEY_ID env))
  || negb (truthy (R2_SECRET_ACCESS_KEY env))
  || negb (truthy (CF_ACCOUNT_ID env)).

Definition syncToR2Body (env : MoltbotEnv) : M SyncResult SyncResult :=
  if credentialsMissing env then
    return_ (failure "R2 storage is not configured" None)
  else
    mounted <- awaitValue (call_mountR2Storage env) ;;
    if negb mounted then return_ (failure "Failed to mount R2 storage" None)
    else
      configDir <- configStage ;;
      rsyncCheckStage ;;;
      pipelineStage configDir.

Definition syncToR2 (env : MoltbotEnv) : Promise SyncResult :=
  settle (syncToR2Body env).

(** *** How far an invocation gets *)

(** The invocation from [w] gets past the precondition and the mount and
    enters the config discovery at [w1]. *)
Definition reachesConfigStage (env : MoltbotEnv) (w w1 : World St Proc)
  : Prop :=
  credentialsMissing env = false
  /\ call_mountR2Storage env w = (true, w1).

(** It gets past the config discovery with [configDir] and enters the rsync
    check at [w2]. *)
Definition reachesRsyncCheck (env : MoltbotEnv) (w : World St Proc)
  (configDir : string) (w2 : World St Proc) : Prop :=
  exists w1, reachesConfigStage env w w1
             /\ configStage w1 = (Normal configDir, w2).

(** It gets past the rsync check and enters the pipeline stage at [w3]. *)
Definition reachesPipeline (env : MoltbotEnv) (w : World St Proc)
  (configDir : string) (w3 : World St Proc) : Prop :=
  exists w2, reachesRsyncCheck env w configDir w2
             /\ rsyncCheckStage w2 = (Normal tt, w3).

(** *** The pipeline, step by step *)

(** One step of the [&&] chain: an rsync, run only if [guard] is a
    directory when a guard is given, or the writing of the marker. *)
Inductive PipelineStep : Type :=
| Rsync (guard : option string) (flags : list string) (src dst : string)
| WriteMarker (file : string).

Definition renderRsync (flags : list string) (src dst : string) : string :=
  "rsync " ++ String.concat " " flags ++ " " ++ src ++ " " ++ dst.

Definition renderStep (step : PipelineStep) : string :=
  match step with
  | Rsync None flags src dst => renderRsync flags src dst
  | Rsync (Some dir) flags src dst =>
      "if [ -d " ++ dir ++ " ]; then " ++ renderRsync flags src dst ++ "; fi"
  | WriteMarker file => "date -Iseconds > " ++ file
  end.

Definition renderPipeline (steps : list PipelineStep) : string :=
  String.concat " && " (map renderStep steps).

Definition syncPipeline (configDir : string) : list PipelineStep :=
  [ Rsync None
      [ "-r"; "--no-times"; "--delete"; "--exclude='*.lock'";
        "--exclude='*.log'"; "--exclude='*.tmp'" ]
      (configDir ++ "/") (R2_MOUNT_PATH ++ "/openclaw/");
    Rsync (Some "/root/clawd")
      [ "-r"; "--no-times"; "--delete"; "--exclude='skills'" ]
      "/root/clawd/" (R2_MOUNT_PATH ++ "/workspace/");
    Rsync (Some "/root/clawd")
      [ "-r"; "--no-times"; "--delete"; "--exclude='skills'" ]
      "/root/clawd/" (R2_MOUNT_PATH ++ "/clawd/");
    Rsync (Some "/root/clawd/skills")
      [ "-r"; "--no-times"; "--delete" ]
      "/root/clawd/skills/" (R2_MOUNT_PATH ++ "/skills/");
    WriteMarker (R2_MOUNT_PATH ++ "/.last-sync") ].

End Sync.

(** *** Reading rsync flags *)

Definition hasFlag (flag : string) (flags : list string) : bool :=
  existsb (String.eqb flag) flags.

(** [--delete]: destination entries absent from the source are removed. *)
Definition mirrors (flags : list string) : bool := hasFlag "--delete" flags.

(** Modification times are preserved by [-t], [--times] and by [-a],
    [--archive], which imply them, unless [--no-times] follows. *)
Definition preservesTimes (flags : list string) : bool :=
  (hasFlag "-t" flags || hasFlag "--times" flags || hasFlag "-a" flags
   || hasFlag "--archive" flags)
  && negb (hasFlag "--no-times" flags).

Definition excludes (pattern : string) (flags : list string) : bool :=
  hasFlag ("--exclude='" ++ pattern ++ "'") flags.

Definition excludesTransient (flags : list string) : bool :=
  excludes "*.lock" flags && excludes "*.log" flags && excludes "*.tmp" flags.

(** The flag lists of the rsync steps of a pipeline. *)
Fixpoint rsyncFlags (steps : list PipelineStep) : list (list string) :=
  match steps with
  | [] => []
  | Rsync _ flags _ _ :: rest => flags :: rsyncFlags rest
  | WriteMarker _ :: rest => rsyncFlags rest
  end.

(** ** A scripted sandbox

    Every command has one scripted behaviour; a process handle is the
    command that started it and the sandbox has no state of its own. *)

Module Mock.

Record Behaviour : Type := mkBehaviour {
  b_start : option Exn;
  b_status : string;
  b_exitCode : option Z;
  b_logs : Outcome Logs
}.

Definition completed (code : Z) (out err : string) : Behaviour :=
  mkBehaviour None "completed" (Some code) (Ok (mkLogs (Some out) (Some err))).

Definition hangs : Behaviour :=
  mkBehaviour None "running" None (Ok (mkLogs (Some EmptyString) (Some EmptyString))).

Definition failsToStart (e : Exn) : Behaviour :=
  mkBehaviour (Some e) "error" None (Threw e).

Definition sandboxOf (script : string -> Behaviour) (mounted : bool)
  : Sandbox unit string :=
  {| startProcess cmd st :=
       mkReply (match b_start (script cmd) with
                | Some e => Threw e
                | None => Ok cmd
                end) st 0%N;
     getLogs p st := mkReply (b_logs (script p)) st 0%N;
     procStatus p _ := b_status (script p);
     procExitCode p _ := b_exitCode (script p);
     elapse _ st := st;
     waitForProcess p timeoutMs _ st :=
       mkReply (Ok tt) st
         (if String.eqb (b_status (script p)) "running" then Z.to_N timeoutMs
          else 0%N);
     mountR2Storage _ st := mkReply mounted st 0%N |}.

Definition mountPath : string := "/data/moltbot".

Definition stringify (_ : Json) (_ : Z) : string := "{}".

Definition start : World unit string := mkWorld 0 [] tt.

Definition env : MoltbotEnv :=
  mkEnv (Some "key") (Some "secret") None (Some "account").

(** A script given as an association list, any other command completing
    with exit code 1 and no output. *)
Fixpoint scriptOf (table : list (string * Behaviour)) (cmd : string)
  : Behaviour :=
  match table with
  | [] => completed 1 EmptyString EmptyString
  | (c, b) :: rest => if String.eqb c cmd then b else scriptOf rest cmd
  end.

Definition statNew : string := configCheckCommand OPENCLAW_CONFIG_PATH.
Definition statLegacy : string := configCheckCommand CLAWDBOT_CONFIG_PATH.
Definition whichRsync : string := rsyncCheckCommand.
Definition readMarker : string := markerReadCmd mountPath.

Definition foundNew : Behaviour :=
  completed 0 "regular file 120 /root/.openclaw/openclaw.json" EmptyString.
Definition foundLegacy : Behaviour :=
  completed 0 "regular file 96 /root/.clawdbot/clawdbot.json" EmptyString.
Definition rsyncFound : Behaviour :=
  completed 0 "/usr/bin/rsync" EmptyString.

Definition run (table : list (string * Behaviour)) (mounted : bool)
  (e : MoltbotEnv) : Outcome SyncResult * World unit string :=
  syncToR2 (sandboxOf (scriptOf table) mounted) mountPath stringify e start.

End Mock.

(** ** The words of the specification *)

(** [hay] contains the exact string [needle]. *)
Definition Contains (hay needle : string) : Prop :=
  exists pre post, hay = pre ++ needle ++ post.

(** Four digits, dash, two digits, dash, two digits, at the start. *)
Definition DatePrefixShape (s : string) : Prop :=
  exists y1 y2 y3 y4 m1 m2 d1 d2 rest,
    Forall (fun c => isDigit c = true) [y1; y2; y3; y4; m1; m2; d1; d2]
    /\ s = String y1 (String y2 (String y3 (String y4 (String "-"
             (String m1 (String m2 (String "-"
                (String d1 (String d2 rest))))))))).

(** A stream capped at [MAX_LOG_CHARS] characters: unchanged up to the cap,
    the first 2000 characters and the marker beyond it. *)
Definition Capped (raw out : string) : Prop :=
  (jsLength raw <= MAX_LOG_CHARS -> out = raw)
  /\ (MAX_LOG_CHARS < jsLength raw ->
      exists head, jsLength head = MAX_LOG_CHARS
                   /\ String.prefix head raw = true
                   /\ out = head ++ truncationMarker).

(** An rsync step that mirrors its source, leaves modification times alone
    and keeps lock, log and temp files out of the mirror. *)
Definition mirrorsWithoutTransient (flags : list string) : bool :=
  mirrors flags && negb (preservesTimes flags) && excludesTransient flags.

(** The sandbox [s] with other readers of [proc.status] and
    [proc.exitCode]. *)
Definition withProcessFields {St Proc : Type} (s : Sandbox St Proc)
  (status' : Proc -> St -> string) (exitCode' : Proc -> St -> option Z)
  : Sandbox St Proc :=
  {| startProcess := startProcess s;
     getLogs := getLogs s;
     procStatus := status';
     procExitCode := exitCode';
     elapse := elapse s;
     waitForProcess := waitForProcess s;
     mountR2Storage := mountR2Storage s |}.

(** [n] times the character [c]. *)
Fixpoint replicate (n : nat) (c : ascii) : string :=
  match n with
  | O => EmptyString
  | S n' => String c (replicate n' c)
  end.

(** ** Scenarios on the scripted sandbox *)

Module Scenario.

Import Mock.

Definition syncCommand : string := syncCmd mountPath "/root/.openclaw".

Definition envWithoutKey : MoltbotEnv :=
  mkEnv None (Some "secret") None (Some "account").

(** The new-path probe hangs, the legacy one finds nothing. *)
Definition newProbeHangs : list (string * Behaviour) :=
  [ (statNew, hangs) ].

(** Only the legacy config exists. *)
Definition onlyLegacy : list (string * Behaviour) :=
  [ (statLegacy, foundLegacy) ].

(** [command -v rsync] exits with 0 and prints nothing. *)
Definition silentRsyncCheck : list (string * Behaviour) :=
  [ (statNew, foundNew); (whichRsync, completed 0 EmptyString EmptyString) ].

(** The pipeline fails with exit code 23 and a marker of an earlier run is
    read back. *)
Definition staleMarker : list (string * Behaviour) :=
  [ (statNew, foundNew); (whichRsync, rsyncFound);
    (syncCommand, completed 23 EmptyString "rsync error: some files could not be transferred");
    (readMarker, completed 0 ("2024-06-01T10:00:00Z" ++ newline) EmptyString) ].


(** A command printing 2500 characters. *)
Definition noisyCommand : string := "yes x | head -c 2500".
Definition longOutput : string := replicate 2500 "x".
Definition noisy : list (string * Behaviour) :=
  [ (noisyCommand, completed 0 longOutput EmptyString) ].

End Scenario.

(** ** Shell words *)

(** The value the shell gives to a word made of single-quoted parts and
    backslash-escaped characters (POSIX sh quoting: inside single quotes
    every character stands for itself up to the closing quote; outside, a
    backslash makes the next character stand for itself).  Any other
    unquoted character, an unclosed quote or a trailing backslash gives
    [None]. *)
Fixpoint shellWordValue (quoted : bool) (word : string) : option string :=
  match word with
  | EmptyString => if quoted then None else Some EmptyString
  | String c rest =>
      if quoted then
        if Ascii.eqb c "'"%char then shellWordValue false rest
        else option_map (String c) (shellWordValue true rest)
      else if Ascii.eqb c "'"%char then shellWordValue true rest
      else if Ascii.eqb c "\"%char then
        match rest with
        | EmptyString => None
        | String d rest' => option_map (String d) (shellWordValue false rest')
        end
      else None
  end.

(** ** Traces *)

(** The commands of the processes started by a list of calls. *)
Definition startedCommands {Proc : Type} (cs : list (Call Proc))
  : list string :=
  flat_map (fun c => match c with
                     | CallStartProcess cmd => [cmd]
                     | _ => []
                     end) cs.

(** From [w] to [w'] calls were only added, and every process they started
    runs a command of [allowed]. *)
Definition StartsOnly {St Proc : Type} (allowed : list string)
  (w w' : World St Proc) : Prop :=
  exists tr, calls w' = (calls w ++ tr)%list
             /\ incl (startedCommands tr) allowed.

(** The commands that probe the container. *)
Definition probeCommands : list string :=
  [ configCheckCommand OPENCLAW_CONFIG_PATH;
    configCheckCommand CLAWDBOT_CONFIG_PATH;
    filesystemContextCommand;
    rsyncCheckCommand ].

(** The error classifications of a [SyncResult]. *)
Definition earlyErrors : list string :=
  [ "R2 storage is not configured";
    "Failed to mount R2 storage";
    "Failed to verify source files";
    "Sync aborted: config check did not complete";
    "Sync aborted: no config file found";
    "Sync aborted: rsync check did not complete";
    "Sync aborted: rsync is not available";
    "Sync aborted: rsync check failed" ].

Definition pipelineErrors : list string := [ "Sync failed"; "Sync error" ].

Definition configDirs : list string := [ "/root/.openclaw"; "/root/.clawdbot" ].

(** Every command [syncToR2] may start. *)
Definition syncCommands (R2_MOUNT_PATH : string) : list string :=
  (probeCommands
   ++ [ syncCmd R2_MOUNT_PATH "/root/.openclaw";
        syncCmd R2_MOUNT_PATH "/root/.clawdbot";
        markerReadCmd R2_MOUNT_PATH ])%list.

(** ** Environment bindings as an object *)

(** A JavaScript object whose properties hold strings, in insertion
    order. *)
Definition Obj : Type := list (string * string).

(** [o.k], undefined when [o] has no property [k]. *)
Fixpoint get (k : string) (o : Obj) : option string :=
  match o with
  | [] => None
  | (k', v) :: rest => if String.eqb k' k then Some v else get k rest
  end.

(** [o.k = v] *)
Fixpoint assign (k v : string) (o : Obj) : Obj :=
  match o with
  | [] => [(k, v)]
  | (k', v') :: rest =>
      if String.eqb k' k then (k, v) :: rest else (k', v') :: assign k v rest
  end.

Definition keys (o : Obj) : list string := map fst o.

(** [a ?? b] *)
Definition nullish (a b : option string) : option string :=
  match a with Some _ => a | None => b end.

(** [a === 'lit'] for an optional string. *)
Definition isString (a : option string) (lit : string) : bool :=
  match a with Some s => String.eqb s lit | None => false end.

(** [toLowerCase] on the code units below 256: A-Z and the capital letters
    of Latin-1 (all of U+00C0..U+00DE but the multiplication sign). *)
Definition toLowerChar (c : ascii) : ascii :=
  let n := nat_of_ascii c in
  if ((65 <=? n)%nat && (n <=? 90)%nat)
     || ((192 <=? n)%nat && (n <=? 222)%nat && negb (n =? 215)%nat)
  then ascii_of_nat (n + 32) else c.

Fixpoint toLowerCase (s : string) : string :=
  match s with
  | EmptyString => EmptyString
  | String c t => String (toLowerChar c) (toLowerCase t)
  end.

(** [s.replace(/\/+$/, '')]: the slashes at the end are removed. *)
Fixpoint stripTrailingSlashes (s : string) : string :=
  match s with
  | EmptyString => EmptyString
  | String c t =>
      match stripTrailingSlashes t with
      | EmptyString =>
          if Ascii.eqb c "/"%char then EmptyString else String c EmptyString
      | t' => String c t'
      end
  end.

(** [s.endsWith(suffix)] *)
Definition endsWith (s suffix : string) : bool :=
  let n := String.length s in
  let m := String.length suffix in
  (m <=? n)%nat && String.eqb (substring (n - m) m s) suffix.

(** ** env-validation.ts *)

Definition isTruthyFlag (value : option string) : bool :=
  if negb (truthy value) then false
  else
    let normalized := toLowerCase (trim (orElse value EmptyString)) in
    String.eqb normalized "1" || String.eqb normalized "true".

Definition MISSING_GATEWAY_TOKEN : string :=
  "OPENCLAW_GATEWAY_TOKEN (or legacy MOLTBOT/CLAWDBOT)".
Definition MISSING_PROVIDER : string :=
  "ANTHROPIC_API_KEY, OPENAI_API_KEY, OPENAI_CODEX_OAUTH, or CLOUDFLARE_AI_GATEWAY_API_KEY + CF_AI_GATEWAY_ACCOUNT_ID + CF_AI_GATEWAY_GATEWAY_ID".

(** [env.OPENCLAW_GATEWAY_TOKEN ?? env.MOLTBOT_GATEWAY_TOKEN ??
    env.CLAWDBOT_GATEWAY_TOKEN] *)
Definition gatewayTokenOf (env : Obj) : option string :=
  nullish (nullish (get "OPENCLAW_GATEWAY_TOKEN" env)
                   (get "MOLTBOT_GATEWAY_TOKEN" env))
          (get "CLAWDBOT_GATEWAY_TOKEN" env).

Definition isTestModeOf (env : Obj) : bool :=
  isString (get "DEV_MODE" env) "true"
  || isString (get "E2E_TEST_MODE" env) "true".

Definition hasProviderOf (env : Obj) : bool :=
  let hasCloudflareGateway :=
    truthy (get "CLOUDFLARE_AI_GATEWAY_API_KEY" env)
    && truthy (get "CF_AI_GATEWAY_ACCOUNT_ID" env)
    && truthy (get "CF_AI_GATEWAY_GATEWAY_ID" env) in
  let hasLegacyGateway :=
    truthy (get "AI_GATEWAY_API_KEY" env)
    && truthy (get "AI_GATEWAY_BASE_URL" env) in
  let hasAnthropicKey := truthy (get "ANTHROPIC_API_KEY" env) in
  let hasOpenAIKey := truthy (get "OPENAI_API_KEY" env) in
  let hasOpenAICodexOAuth := isTruthyFlag (get "OPENAI_CODEX_OAUTH" env) in
  hasCloudflareGateway || hasLegacyGateway || hasAnthropicKey
  || hasOpenAIKey || hasOpenAICodexOAuth.

(** [missing.push(m)] when [cond] holds. *)
Definition pushIf (cond : bool) (m : string) (missing : list string)
  : list string :=
  if cond then (missing ++ [m])%list else missing.

Definition validateRequiredEnv (env : Obj) : list string :=
  let missing := [] in
  let isTestMode := isTestModeOf env in
  let gatewayToken := gatewayTokenOf env in
  let missing :=
    pushIf (negb (truthy gatewayToken)) MISSING_GATEWAY_TOKEN missing in
  let missing :=
    if negb isTestMode then
      let missing :=
        pushIf (negb (truthy (get "CF_ACCESS_TEAM_DOMAIN" env)))
          "CF_ACCESS_TEAM_DOMAIN" missing in
      pushIf (negb (truthy (get "CF_ACCESS_AUD" env))) "CF_ACCESS_AUD" missing
    else missing in
  pushIf (negb (hasProviderOf env)) MISSING_PROVIDER missing.

(** ** gateway/env.ts *)

(** [if (env.src) envVars.dst = env.src] *)
Definition copyAs (env : Obj) (src dst : string) (envVars : Obj) : Obj :=
  match get src env with
  | Some v => if nonEmpty v then assign dst v envVars else envVars
  | None => envVars
  end.

(** The legacy AI Gateway block and its [else if]. *)
Definition legacyGateway (env : Obj) (envVars : Obj) : Obj :=
  match get "AI_GATEWAY_API_KEY" env, get "AI_GATEWAY_BASE_URL" env with
  | Some apiKey, Some baseUrl =>
      if nonEmpty apiKey && nonEmpty baseUrl then
        let normalizedBaseUrl := stripTrailingSlashes baseUrl in
        let isOpenAIGateway := endsWith normalizedBaseUrl "/openai" in
        let envVars :=
          assign "AI_GATEWAY_BASE_URL" normalizedBaseUrl envVars in
        if isOpenAIGateway then
          let envVars :=
            if truthy (get "OPENAI_API_KEY" env) then
              let envVars :=
                assign "OPENAI_API_KEY"
                  (orElse (get "OPENAI_API_KEY" env) EmptyString) envVars in
              assign "AI_GATEWAY_API_KEY" apiKey envVars
            else assign "OPENAI_API_KEY" apiKey envVars in
          assign "OPENAI_BASE_URL" normalizedBaseUrl envVars
        else
          let envVars :=
            assign "ANTHROPIC_BASE_URL" normalizedBaseUrl envVars in
          assign "ANTHROPIC_API_KEY" apiKey envVars
      else copyAs env "ANTHROPIC_BASE_URL" "ANTHROPIC_BASE_URL" envVars
  | _, _ => copyAs env "ANTHROPIC_BASE_URL" "ANTHROPIC_BASE_URL" envVars
  end.

(** The gateway token and its legacy alias. *)
Definition gatewayTokenAliases (env : Obj) (envVars : Obj) : Obj :=
  match gatewayTokenOf env with
  | Some gatewayToken =>
      if nonEmpty gatewayToken then
        assign "CLAWDBOT_GATEWAY_TOKEN" gatewayToken
          (assign "OPENCLAW_GATEWAY_TOKEN" gatewayToken envVars)
      else envVars
  | None => envVars
  end.

(** The variables copied under their own name after the token aliases and
    [DEV_MODE], in the order of the source. *)
Definition channelAndToolKeys : list string :=
  [ "TELEGRAM_BOT_TOKEN"; "TELEGRAM_DM_POLICY"; "DISCORD_BOT_TOKEN";
    "DISCORD_DM_POLICY"; "SLACK_BOT_TOKEN"; "SLACK_APP_TOKEN";
    "CF_AI_GATEWAY_MODEL"; "CF_ACCOUNT_ID"; "BRAVE_API_KEY"; "CDP_SECRET";
    "WORKER_URL" ].

Definition buildEnvVars (env : Obj) : Obj :=
  let envVars : Obj := [] in
  let envVars :=
    copyAs env "CLOUDFLARE_AI_GATEWAY_API_KEY" "CLOUDFLARE_AI_GATEWAY_API_KEY"
      envVars in
  let envVars :=
    copyAs env "CF_AI_GATEWAY_ACCOUNT_ID" "CF_AI_GATEWAY_ACCOUNT_ID"
      envVars in
  let envVars :=
    copyAs env "CF_AI_GATEWAY_GATEWAY_ID" "CF_AI_GATEWAY_GATEWAY_ID"
      envVars in
  let envVars := copyAs env "ANTHROPIC_API_KEY" "ANTHROPIC_API_KEY" envVars in
  let envVars := copyAs env "OPENAI_API_KEY" "OPENAI_API_KEY" envVars in
  let envVars :=
    copyAs env "OPENAI_CODEX_OAUTH" "OPENAI_CODEX_OAUTH"
      envVars in
  let envVars := legacyGateway env envVars in
  let envVars := gatewayTokenAliases env envVars in
  let envVars := copyAs env "DEV_MODE" "OPENCLAW_DEV_MODE" envVars in
  let envVars :=
    copyAs env "TELEGRAM_BOT_TOKEN" "TELEGRAM_BOT_TOKEN"
      envVars in
  let envVars :=
    copyAs env "TELEGRAM_DM_POLICY" "TELEGRAM_DM_POLICY"
      envVars in
  let envVars := copyAs env "DISCORD_BOT_TOKEN" "DISCORD_BOT_TOKEN" envVars in
  let envVars := copyAs env "DISCORD_DM_POLICY" "DISCORD_DM_POLICY" envVars in
  let envVars := copyAs env "SLACK_BOT_TOKEN" "SLACK_BOT_TOKEN" envVars in
  let envVars := copyAs env "SLACK_APP_TOKEN" "SLACK_APP_TOKEN" envVars in
  let envVars :=
    copyAs env "CF_AI_GATEWAY_MODEL" "CF_AI_GATEWAY_MODEL"
      envVars in
  let envVars := copyAs env "CF_ACCOUNT_ID" "CF_ACCOUNT_ID" envVars in
  let envVars := copyAs env "BRAVE_API_KEY" "BRAVE_API_KEY" envVars in
  let envVars := copyAs env "CDP_SECRET" "CDP_SECRET" envVars in
  let envVars := copyAs env "WORKER_URL" "WORKER_URL" envVars in
  envVars.

(** The names [buildEnvVars] may give to the container. *)
Definition containerKeys : list string :=
  [ "CLOUDFLARE_AI_GATEWAY_API_KEY"; "CF_AI_GATEWAY_ACCOUNT_ID";
    "CF_AI_GATEWAY_GATEWAY_ID"; "ANTHROPIC_API_KEY"; "OPENAI_API_KEY";
    "OPENAI_CODEX_OAUTH"; "AI_GATEWAY_BASE_URL"; "AI_GATEWAY_API_KEY";
    "OPENAI_BASE_URL"; "ANTHROPIC_BASE_URL"; "OPENCLAW_GATEWAY_TOKEN";
    "CLAWDBOT_GATEWAY_TOKEN"; "OPENCLAW_DEV_MODE"; "TELEGRAM_BOT_TOKEN";
    "TELEGRAM_DM_POLICY"; "DISCORD_BOT_TOKEN"; "DISCORD_DM_POLICY";
    "SLACK_BOT_TOKEN"; "SLACK_APP_TOKEN"; "CF_AI_GATEWAY_MODEL";
    "CF_ACCOUNT_ID"; "BRAVE_API_KEY"; "CDP_SECRET"; "WORKER_URL" ].

(** A string made of white space only. *)
Definition allWhiteSpace (s : string) : bool :=
  match trimStart s with EmptyString => true | _ => false end.

(** The names the legacy AI Gateway block may set. *)
Definition gatewayKeys : list string :=
  [ "AI_GATEWAY_BASE_URL"; "OPENAI_API_KEY"; "AI_GATEWAY_API_KEY";
    "OPENAI_BASE_URL"; "ANTHROPIC_BASE_URL"; "ANTHROPIC_API_KEY" ].

(** The variables that reach the container under their own name whatever
    the other variables hold. *)
Definition passThroughKeys : list string :=
  [ "CLOUDFLARE_AI_GATEWAY_API_KEY"; "CF_AI_GATEWAY_ACCOUNT_ID";
    "CF_AI_GATEWAY_GATEWAY_ID"; "OPENAI_CODEX_OAUTH" ] ++ channelAndToolKeys.

(** Every property of the object holds a string that is not empty. *)
Definition noEmptyValue (o : Obj) : Prop :=
  Forall (fun kv => nonEmpty (snd kv) = true) o.

(** ** More scenarios *)

Module MoreScenarios.

Import Mock Scenario.

(** The sandbox cannot start the first probe. *)
Definition probeCannotStart : list (string * Behaviour) :=
  [ (statNew, failsToStart (ErrorObj "container stopped")) ].

(** The pipeline fails and no marker can be read. *)
Definition markerMissing : list (string * Behaviour) :=
  [ (statNew, foundNew); (whichRsync, rsyncFound);
    (syncCommand,
     completed 23 EmptyString
       "rsync error: some files could not be transferred");
    (readMarker,
     completed 1 EmptyString "cat: /data/moltbot/.last-sync: No such file") ].

(** A worker environment with an Anthropic gateway. *)
Definition anthropicGatewayEnv : Obj :=
  [ ("AI_GATEWAY_API_KEY", "gateway-key");
    ("AI_GATEWAY_BASE_URL", "https://gateway.example.com/anthropic///");
    ("ANTHROPIC_API_KEY", "direct-key");
    ("R2_SECRET_ACCESS_KEY", "r2-secret");
    ("OPENCLAW_GATEWAY_TOKEN", "token");
    ("DEV_MODE", "true") ].

(** A worker environment with direct keys only. *)
Definition directEnv : Obj :=
  [ ("ANTHROPIC_API_KEY", "sk-key");
    ("ANTHROPIC_BASE_URL", "https://api.anthropic.com");
    ("MOLTBOT_GATEWAY_TOKEN", "legacy-token");
    ("TELEGRAM_BOT_TOKEN", "tg");
    ("DEV_MODE", "true") ].

(** The preferred token is set to the empty string. *)
Definition emptyTokenEnv : Obj :=
  [ ("OPENCLAW_GATEWAY_TOKEN", EmptyString);
    ("MOLTBOT_GATEWAY_TOKEN", "legacy-token") ].

End MoreScenarios.

(** ** scripts/patch-browser-profile.cjs *)

(** The upper-case hexadecimal digit of [n < 16]. *)
Definition hexDigit (n : nat) : ascii :=
  if (n <? 10)%nat then ascii_of_nat (48 + n) else ascii_of_nat (55 + n).

(** [%XY] for the byte [b]. *)
Definition percentByte (b : nat) : string :=
  String "%" (String (hexDigit (b / 16)) (String (hexDigit (b mod 16))
                                                 EmptyString)).

(** The characters [encodeURIComponent] leaves alone: letters, digits and
    [- _ . ! ~ * ' ( )]. *)
Definition isUnreserved (c : ascii) : bool :=
  let n := nat_of_ascii c in
  ((65 <=? n)%nat && (n <=? 90)%nat)
  || ((97 <=? n)%nat && (n <=? 122)%nat)
  || ((48 <=? n)%nat && (n <=? 57)%nat)
  || existsb (Ascii.eqb c)
       [ "-"; "_"; "."; "!"; "~"; "*"; "'"; "("; ")" ]%char.

(** One code unit below 256 encoded: itself when unreserved, else the
    bytes of its UTF-8 form, one below 128 and two from 128 on. *)
Definition encodeUnit (c : ascii) : string :=
  let n := nat_of_ascii c in
  if isUnreserved c then String c EmptyString
  else if (n <? 128)%nat then percentByte n
  else percentByte (192 + n / 64) ++ percentByte (128 + n mod 64).

Fixpoint encodeURIComponent (s : string) : string :=
  match s with
  | EmptyString => EmptyString
  | String c t => encodeUnit c ++ encodeURIComponent t
  end.


(** Every character of [s] satisfies [p]. *)
Fixpoint allChars (p : ascii -> bool) (s : string) : bool :=
  match s with
  | EmptyString => true
  | String c t => p c && allChars p t
  end.

Definition isQuerySafe (c : ascii) : bool :=
  isUnreserved c || Ascii.eqb c "%"%char.

Section BrowserProfile.

(** [new URL(s)]: the hostname and the origin of the parsed URL, nothing
    when the constructor throws. *)
Variable URL_parse : string -> option (string * string).



End BrowserProfile.



(** * Properties *)

(** ** Strings *)

Lemma append_assoc (a b c : string) : (a ++ b) ++ c = a ++ (b ++ c).
Proof.
  induction a as [|x a IH]; simpl; [reflexivity|now rewrite IH].
Qed.

Lemma append_empty_r (a : string) : a ++ EmptyString = a.
Proof.
  induction a as [|x a IH]; simpl; [reflexivity|now rewrite IH].
Qed.

Lemma length_append (a b : string) :
  String.length (a ++ b) = (String.length a + String.length b)%nat.
Proof.
  induction a as [|x a IH]; simpl; [reflexivity|now rewrite IH].
Qed.

Lemma prefix_iff (needle hay : string) :
  String.prefix needle hay = true <-> exists post, hay = needle ++ post.
Proof.
  revert hay; induction needle as [|a needle IH]; intros hay.
  - destruct hay; simpl; split; intros _; eauto.
  - destruct hay as [|b hay]; simpl.
    + split; [discriminate|intros [post H]; discriminate].
    + destruct (ascii_dec a b) as [->|Hab].
      * rewrite IH. split; intros [post H]; exists post.
        -- now rewrite H.
        -- now injection H.
      * split; [discriminate|intros [post H]; injection H; intros; congruence].
Qed.

Lemma includes_unfold (hay needle : string) :
  includes hay needle =
  if String.prefix needle hay then true
  else match hay with
       | EmptyString => false
       | String _ t => includes t needle
       end.
Proof. destruct hay; reflexivity. Qed.

(** [includes] decides containment. *)
Lemma includes_iff (hay needle : string) :
  includes hay needle = true <-> Contains hay needle.
Proof.
  unfold Contains; split.
  - induction hay as [|c hay IH]; rewrite includes_unfold;
      destruct (String.prefix needle _) eqn:P.
    + intros _. apply prefix_iff in P as [post ->]. now exists EmptyString, post.
    + discriminate.
    + intros _. apply prefix_iff in P as [post ->]. now exists EmptyString, post.
    + intros H. destruct (IH H) as (pre & post & ->).
      now exists (String c pre), post.
  - intros (pre & post & ->).
    induction pre as [|c pre IH]; rewrite includes_unfold.
    + simpl. replace (String.prefix needle (needle ++ post)) with true; [easy|].
      symmetry. apply prefix_iff. now exists post.
    + destruct (String.prefix needle _); [reflexivity|exact IH].
Qed.

Lemma length_take (n : nat) (s : string) :
  String.length (take n s) = Nat.min n (String.length s).
Proof.
  revert s; induction n as [|n IH]; intros [|c s]; simpl; auto.
Qed.

Lemma take_all (n : nat) (s : string) :
  (String.length s <= n)%nat -> take n s = s.
Proof.
  revert s; induction n as [|n IH]; intros [|c s]; simpl; intros H;
    try reflexivity; try lia.
  f_equal. apply IH. lia.
Qed.

Lemma take_prefix (n : nat) (s : string) : String.prefix (take n s) s = true.
Proof.
  revert s; induction n as [|n IH]; intros [|c s]; simpl; auto.
  destruct (ascii_dec c c); [apply IH|congruence].
Qed.

Lemma nonEmpty_iff (s : string) : nonEmpty s = true <-> s <> EmptyString.
Proof. destruct s; simpl; split; congruence. Qed.

(** [truncateOutput] caps its argument. *)
Lemma truncateOutput_capped (value : string) :
  Capped value (truncateOutput value).
Proof.
  unfold Capped, truncateOutput. split; intros H.
  - destruct (Z.leb_spec (jsLength value) MAX_LOG_CHARS); [reflexivity|lia].
  - destruct (Z.leb_spec (jsLength value) MAX_LOG_CHARS); [lia|].
    exists (slice0 MAX_LOG_CHARS value). split; [|split].
    + unfold slice0, jsLength in *. rewrite length_take.
      unfold MAX_LOG_CHARS in *. lia.
    + apply take_prefix.
    + reflexivity.
Qed.

(** The anchored pattern decides the date-prefix shape. *)
Lemma DATE_PREFIX_iff (s : string) :
  matchAnchored DATE_PREFIX s = true <-> DatePrefixShape s.
Proof.
  unfold DatePrefixShape, DATE_PREFIX; split.
  - destruct s as [|y1 [|y2 [|y3 [|y4 [|h1 [|m1 [|m2 [|h2 [|d1 [|d2 rest]]]]]]]]]];
      cbn [matchAnchored atomMatches]; rewrite ?andb_false_r;
      try discriminate.
    intros H. repeat (apply andb_prop in H as [? H]).
    repeat match goal with
           | E : Ascii.eqb _ _ = true |- _ => apply Ascii.eqb_eq in E; subst
           end.
    exists y1, y2, y3, y4, m1, m2, d1, d2, rest.
    split; [|reflexivity].
    repeat (apply Forall_cons; [assumption|]). apply Forall_nil.
  - intros (y1 & y2 & y3 & y4 & m1 & m2 & d1 & d2 & rest & Hd & ->).
    repeat match goal with
           | F : Forall _ (_ :: _) |- _ => inversion F; clear F; subst
           end.
    cbn [matchAnchored atomMatches].
    repeat match goal with
           | E : isDigit _ = true |- _ => rewrite E; clear E
           end.
    reflexivity.
Qed.

(** ** The monad and the stages *)

Ltac unfold_monad :=
  unfold settle, await, awaitValue, bind, tryCatch, ret, return_, Date_now.

(** Case analysis on what the first collaborator call of the goal answers. *)
Ltac case_call :=
  match goal with
  | |- context [match ?p ?w with pair _ _ => _ end] =>
      let o := fresh "o" in
      let w' := fresh "w" in
      destruct (p w) as [o w'] eqn:?; try destruct o
  end.

Section SyncFacts.

Context {St Proc : Type}.
Variable sandbox : Sandbox St Proc.
Variable R2_MOUNT_PATH : string.
Variable JSON_stringify : Json -> Z -> string.

Implicit Types (w : World St Proc) (proc : Proc).

(** *** The polling loop *)

Lemma pollFuel_irrelevant (n m : nat) proc (deadline : Z) w :
  (Z.to_nat (deadline - clock w) <= n)%nat ->
  (Z.to_nat (deadline - clock w) <= m)%nat ->
  pollFuel sandbox n proc deadline w = pollFuel sandbox m proc deadline w.
Proof.
  revert m w; induction n as [|n IH]; intros m w Hn Hm;
    destruct m as [|m]; simpl;
    destruct (stillPolling sandbox proc deadline w) eqn:P; try reflexivity;
    unfold stillPolling in P; apply andb_prop in P as [_ P];
    apply Z.ltb_lt in P; try lia.
  apply IH; unfold sleep, POLL_INTERVAL_MS; simpl; lia.
Qed.

(** The loop as the source writes it: while the process is active and the
    deadline is ahead, sleep one poll interval and look again. *)
Lemma pollLoop_unfold proc (deadline : Z) w :
  pollLoop sandbox proc deadline w =
  if stillPolling sandbox proc deadline w
  then pollLoop sandbox proc deadline (sleep sandbox POLL_INTERVAL_MS w)
  else w.
Proof.
  unfold pollLoop at 1.
  destruct (Z.to_nat (deadline - clock w)) as [|n] eqn:E; simpl;
    destruct (stillPolling sandbox proc deadline w) eqn:P; try reflexivity.
  - unfold stillPolling in P. apply andb_prop in P as [_ P].
    apply Z.ltb_lt in P. lia.
  - apply pollFuel_irrelevant; unfold sleep, POLL_INTERVAL_MS; simpl; lia.
Qed.



(** The loop makes no call to a collaborator. *)
Lemma pollFuel_calls (n : nat) proc (deadline : Z) w :
  calls (pollFuel sandbox n proc deadline w) = calls w.
Proof.
  revert w; induction n as [|n IH]; intros w; simpl;
    destruct (stillPolling sandbox proc deadline w); try reflexivity.
  now rewrite IH.
Qed.

(** *** The helpers, call by call *)

Lemma runCommandWithDetails_unfold (cmd : string) (timeoutMs : Z) w :
  runCommandWithDetails sandbox cmd timeoutMs w =
  match sandbox_startProcess sandbox cmd w with
  | (Threw e, w1) => (Threw e, w1)
  | (Ok proc, w1) =>
      match call_waitForProcess sandbox proc timeoutMs
              (Some POLL_INTERVAL_MS) w1 with
      | (Threw e, w2) => (Threw e, w2)
      | (Ok _, w2) =>
          match proc_getLogs sandbox proc
                  (pollLoop sandbox proc (clock w + timeoutMs) w2) with
          | (Threw e, w3) => (Threw e, w3)
          | (Ok logs, w3) =>
              (Ok (commandResultOf sandbox cmd (clock w) proc logs w3), w3)
          end
      end
  end.
Proof.
  unfold runCommandWithDetails. unfold_monad.
  repeat (case_call; try reflexivity).
Qed.

Lemma checkConfigPath_unfold (p : string) w :
  checkConfigPath sandbox p w =
  match runCommandWithDetails sandbox (configCheckCommand p)
          CONFIG_CHECK_TIMEOUT_MS w with
  | (Threw e, w') => (Threw e, w')
  | (Ok result, w') =>
      (Ok {| base := result; path := p;
             exists_ := didComplete result
                        && exitCodeIs (exitCode result) 0
                        && includes (stdout result) p |}, w')
  end.
Proof.
  unfold checkConfigPath. unfold_monad.
  repeat (case_call; try reflexivity).
Qed.

(** The filesystem probe never throws: its own failure becomes an error
    string. *)
Lemma collectFilesystemContext_unfold w :
  collectFilesystemContext sandbox w =
  match runCommandWithDetails sandbox filesystemContextCommand
          CONFIG_CHECK_TIMEOUT_MS w with
  | (Threw e, w') =>
      (Ok {| fs_result := None; fs_error := Some (errorMessage e) |}, w')
  | (Ok result, w') =>
      (Ok {| fs_result := Some result; fs_error := None |}, w')
  end.
Proof.
  unfold collectFilesystemContext. unfold_monad.
  repeat (case_call; try reflexivity).
Qed.

Lemma collectFilesystemContext_total w :
  exists fsContext w', collectFilesystemContext sandbox w = (Ok fsContext, w').
Proof.
  rewrite collectFilesystemContext_unfold.
  case_call; eauto.
Qed.

(** *** The stages *)

Lemma configStage_unfold w :
  configStage sandbox JSON_stringify w =
  match checkConfigPath sandbox OPENCLAW_CONFIG_PATH w with
  | (Threw e, w1) =>
      (Return (failure "Failed to verify source files"
                 (Some (errorMessage e))), w1)
  | (Ok checkNew, w1) =>
      if exists_ checkNew then (Normal "/root/.openclaw", w1)
      else
        match checkConfigPath sandbox CLAWDBOT_CONFIG_PATH w1 with
        | (Threw e, w2) =>
            (Return (failure "Failed to verify source files"
                       (Some (errorMessage e))), w2)
        | (Ok checkLegacy, w2) =>
            if exists_ checkLegacy then (Normal "/root/.clawdbot", w2)
            else
              match collectFilesystemContext sandbox w2 with
              | (Threw e, w3) =>
                  (Return (failure "Failed to verify source files"
                             (Some (errorMessage e))), w3)
              | (Ok fsContext, w3) =>
                  (Return
                     (failure
                        (if negb (didComplete (base checkNew))
                            || negb (didComplete (base checkLegacy))
                         then "Sync aborted: config check did not complete"
                         else "Sync aborted: no config file found")
                        (Some (buildConfigCheckDetails JSON_stringify
                                 [checkNew; checkLegacy] fsContext))), w3)
              end
        end
  end.
Proof.
  unfold configStage. unfold_monad.
  case_call; [|reflexivity].
  destruct (exists_ a); [reflexivity|].
  case_call; [|reflexivity].
  destruct (exists_ a0); [reflexivity|].
  destruct (negb (didComplete (base a)) || negb (didComplete (base a0)));
    case_call; reflexivity.
Qed.

(** The config discovery ends normally with a directory or returns a
    result; it does not throw. *)
Lemma configStage_completes w :
  (exists configDir w', configStage sandbox JSON_stringify w
                        = (Normal configDir, w'))
  \/ (exists r w', configStage sandbox JSON_stringify w = (Return r, w')).
Proof.
  rewrite configStage_unfold.
  case_call; [|right; eauto].
  destruct (exists_ a); [left; eauto|].
  case_call; [|right; eauto].
  destruct (exists_ a0); [left; eauto|].
  case_call; right; eauto.
Qed.

Lemma rsyncCheckStage_unfold w :
  rsyncCheckStage sandbox JSON_stringify w =
  match runCommandWithDetails sandbox rsyncCheckCommand
          RSYNC_CHECK_TIMEOUT_MS w with
  | (Threw e, w') =>
      (Return (failure "Sync aborted: rsync check failed"
                 (Some (errorMessage e))), w')
  | (Ok rsyncCheck, w') =>
      if negb (didComplete rsyncCheck) then
        (Return (failure "Sync aborted: rsync check did not complete"
                   (Some (buildRsyncCheckDetails JSON_stringify rsyncCheck))),
         w')
      else if negb (exitCodeIs (exitCode rsyncCheck) 0)
              || String.eqb (trim (stdout rsyncCheck)) EmptyString then
        (Return (failure "Sync aborted: rsync is not available"
                   (Some (buildRsyncCheckDetails JSON_stringify rsyncCheck))),
         w')
      else (Normal tt, w')
  end.
Proof.
  unfold rsyncCheckStage. unfold_monad.
  case_call; [|reflexivity].
  destruct (negb (didComplete a)); [reflexivity|].
  destruct (negb (exitCodeIs (exitCode a) 0)
            || String.eqb (trim (stdout a)) EmptyString); reflexivity.
Qed.

Lemma rsyncCheckStage_completes w :
  (exists w', rsyncCheckStage sandbox JSON_stringify w = (Normal tt, w'))
  \/ (exists r w', rsyncCheckStage sandbox JSON_stringify w = (Return r, w')).
Proof.
  rewrite rsyncCheckStage_unfold.
  case_call; [|right; eauto].
  destruct (negb (didComplete a)); [right; eauto|].
  destruct (negb (exitCodeIs (exitCode a) 0)
            || String.eqb (trim (stdout a)) EmptyString);
    [right; eauto|left; eauto].
Qed.

(** The [catch] of the pipeline stage. *)
Lemma pipelineStage_unfold (configDir : string) w :
  pipelineStage sandbox R2_MOUNT_PATH configDir w =
  match pipelineBody sandbox R2_MOUNT_PATH configDir w with
  | (Throw e, w') =>
      (Return (failure "Sync error" (Some (errorMessage e))), w')
  | other => other
  end.
Proof. reflexivity. Qed.

(** The body of the pipeline stage returns or throws; it never falls off
    its end. *)
Lemma pipelineBody_completes (configDir : string) w :
  (exists r w', pipelineBody sandbox R2_MOUNT_PATH configDir w
                = (Return r, w'))
  \/ (exists e w', pipelineBody sandbox R2_MOUNT_PATH configDir w
                   = (Throw e, w')).
Proof.
  unfold pipelineBody. unfold_monad.
  repeat (case_call; [|right; eauto]).
  destruct (markerVerified _); [left; eauto|].
  case_call; [left|right]; eauto.
Qed.

Lemma pipelineStage_returns (configDir : string) w :
  exists r w', pipelineStage sandbox R2_MOUNT_PATH configDir w
               = (Return r, w').
Proof.
  rewrite pipelineStage_unfold.
  destruct (pipelineBody_completes configDir w) as [(r & w' & ->)|(e & w' & ->)];
    eauto.
Qed.

(** *** The orchestrator, stage by stage *)

Lemma syncToR2_unfold (env : MoltbotEnv) w :
  syncToR2 sandbox R2_MOUNT_PATH JSON_stringify env w =
  if credentialsMissing env then
    (Ok (failure "R2 storage is not configured" None), w)
  else
    let (mounted, w1) := call_mountR2Storage sandbox env w in
    if mounted then
      settle (configDir <- configStage sandbox JSON_stringify ;;
              rsyncCheckStage sandbox JSON_stringify ;;;
              pipelineStage sandbox R2_MOUNT_PATH configDir) w1
    else (Ok (failure "Failed to mount R2 storage" None), w1).
Proof.
  unfold syncToR2, syncToR2Body.
  destruct (credentialsMissing env); [reflexivity|].
  unfold settle at 1, bind at 1, awaitValue.
  destruct (call_mountR2Storage sandbox env w) as [[|] w1]; reflexivity.
Qed.

Lemma syncToR2_from_configStage (env : MoltbotEnv) w w1 :
  reachesConfigStage sandbox env w w1 ->
  syncToR2 sandbox R2_MOUNT_PATH JSON_stringify env w =
  settle (configDir <- configStage sandbox JSON_stringify ;;
          rsyncCheckStage sandbox JSON_stringify ;;;
          pipelineStage sandbox R2_MOUNT_PATH configDir) w1.
Proof.
  intros [Hc Hm]. rewrite syncToR2_unfold, Hc, Hm. reflexivity.
Qed.

(** A result returned by the config discovery is the result of the
    invocation. *)
Lemma syncToR2_configStage_returns (env : MoltbotEnv) w w1 r w2 :
  reachesConfigStage sandbox env w w1 ->
  configStage sandbox JSON_stringify w1 = (Return r, w2) ->
  syncToR2 sandbox R2_MOUNT_PATH JSON_stringify env w = (Ok r, w2).
Proof.
  intros Hr Hs. rewrite (syncToR2_from_configStage _ _ _ Hr).
  unfold settle, bind. now rewrite Hs.
Qed.

Lemma syncToR2_from_rsyncCheck (env : MoltbotEnv) w (configDir : string) w2 :
  reachesRsyncCheck sandbox JSON_stringify env w configDir w2 ->
  syncToR2 sandbox R2_MOUNT_PATH JSON_stringify env w =
  settle (rsyncCheckStage sandbox JSON_stringify ;;;
          pipelineStage sandbox R2_MOUNT_PATH configDir) w2.
Proof.
  intros (w1 & Hr & Hs). rewrite (syncToR2_from_configStage _ _ _ Hr).
  unfold settle, bind. now rewrite Hs.
Qed.


Lemma syncToR2_from_pipeline (env : MoltbotEnv) w (configDir : string) w3 :
  reachesPipeline sandbox JSON_stringify env w configDir w3 ->
  syncToR2 sandbox R2_MOUNT_PATH JSON_stringify env w =
  settle (pipelineStage sandbox R2_MOUNT_PATH configDir) w3.
Proof.
  intros (w2 & Hr & Hs). rewrite (syncToR2_from_rsyncCheck _ _ _ _ Hr).
  unfold settle, bind. now rewrite Hs.
Qed.

End SyncFacts.

(** ** The claims about the orchestrator *)

Section Orchestrator.

Context {St Proc : Type}.
Variable sandbox : Sandbox St Proc.
Variable R2_MOUNT_PATH : string.
Variable JSON_stringify : Json -> Z -> string.

Implicit Types (w : World St Proc) (proc : Proc) (env : MoltbotEnv).

Local Notation "'sync'" :=
  (syncToR2 sandbox R2_MOUNT_PATH JSON_stringify).

(** C10. When one of the three storage credentials is absent, [syncToR2]
    returns the not-configured failure at once: the world it leaves is the
    world it was called in, so no process was started and no collaborator
    was called. *)
Theorem syncToR2_not_configured env w :
  R2_ACCESS_KEY_ID env = None \/ R2_SECRET_ACCESS_KEY env = None
  \/ CF_ACCOUNT_ID env = None ->
  sync env w = (Ok (failure "R2 storage is not configured" None), w)
  /\ calls (snd (sync env w)) = calls w
  /\ sb (snd (sync env w)) = sb w.
Proof.
  intros H.
  assert (E : sync env w = (Ok (failure "R2 storage is not configured" None), w)).
  { rewrite syncToR2_unfold. unfold credentialsMissing.
    destruct H as [->|[->| ->]]; simpl; rewrite ?orb_true_r; reflexivity. }
  rewrite E. auto.
Qed.

(** C1. When neither config probe reports [exists] and one of the two did
    not complete, whichever it is and whatever the other reports, the
    invocation fails with 'Sync aborted: config check did not complete'. *)
Theorem config_check_incomplete env w w1 checkNew w2 checkLegacy w3 :
  reachesConfigStage sandbox env w w1 ->
  checkConfigPath sandbox OPENCLAW_CONFIG_PATH w1 = (Ok checkNew, w2) ->
  checkConfigPath sandbox CLAWDBOT_CONFIG_PATH w2 = (Ok checkLegacy, w3) ->
  exists_ checkNew = false ->
  exists_ checkLegacy = false ->
  didComplete (base checkNew) = false
  \/ didComplete (base checkLegacy) = false ->
  exists fsContext w',
    sync env w =
    (Ok (failure "Sync aborted: config check did not complete"
           (Some (buildConfigCheckDetails JSON_stringify
                    [checkNew; checkLegacy] fsContext))), w').
Proof.
  intros Hr Hn Hl En El Hd.
  destruct (collectFilesystemContext_total sandbox w3) as (fs & w' & Hfs).
  exists fs, w'.
  apply (syncToR2_configStage_returns _ _ _ _ _ w1 _ _ Hr).
  rewrite configStage_unfold, Hn, En, Hl, El, Hfs.
  destruct Hd as [-> | ->]; simpl; rewrite ?orb_true_r; reflexivity.
Qed.

(** C5. When the new-path probe reports absence and the legacy-path probe
    reports [exists], the config discovery ends normally with
    [/root/.clawdbot] and the invocation goes on to the rsync check with
    it. *)
Theorem legacy_config_chosen env w w1 checkNew w2 checkLegacy w3 :
  reachesConfigStage sandbox env w w1 ->
  checkConfigPath sandbox OPENCLAW_CONFIG_PATH w1 = (Ok checkNew, w2) ->
  exists_ checkNew = false ->
  checkConfigPath sandbox CLAWDBOT_CONFIG_PATH w2 = (Ok checkLegacy, w3) ->
  exists_ checkLegacy = true ->
  configStage sandbox JSON_stringify w1 = (Normal "/root/.clawdbot", w3)
  /\ sync env w =
     settle (rsyncCheckStage sandbox JSON_stringify ;;;
             pipelineStage sandbox R2_MOUNT_PATH "/root/.clawdbot") w3.
Proof.
  intros Hr Hn En Hl El.
  assert (Hc : configStage sandbox JSON_stringify w1
               = (Normal "/root/.clawdbot", w3)).
  { now rewrite configStage_unfold, Hn, En, Hl, El. }
  split; [exact Hc|].
  apply syncToR2_from_rsyncCheck. exists w1. auto.
Qed.


(** What the body of the pipeline stage does once the pipeline was started
    and waited for and the marker was read back. *)
Lemma pipelineBody_after_read (configDir : string) w proc w1 w2 timestampProc
  w3 w4 timestampLogs w5 :
  sandbox_startProcess sandbox (syncCmd R2_MOUNT_PATH configDir) w
  = (Ok proc, w1) ->
  call_waitForProcess sandbox proc 30000 None w1 = (Ok tt, w2) ->
  sandbox_startProcess sandbox (markerReadCmd R2_MOUNT_PATH) w2
  = (Ok timestampProc, w3) ->
  call_waitForProcess sandbox timestampProc 5000 None w3 = (Ok tt, w4) ->
  proc_getLogs sandbox timestampProc w4 = (Ok timestampLogs, w5) ->
  pipelineBody sandbox R2_MOUNT_PATH configDir w =
  let lastSync := option_map trim (logs_stdout timestampLogs) in
  if markerVerified lastSync then
    (Return {| success := true; lastSync := lastSync; error := None;
               details := None |}, w5)
  else
    match proc_getLogs sandbox proc w5 with
    | (Ok logs, w6) =>
        (Return
           (failure "Sync failed"
              (Some (firstTruthy (logs_stderr logs)
                       (firstTruthy (logs_stdout logs)
                          "No timestamp file created")))), w6)
    | (Threw e, w6) => (Throw e, w6)
    end.
Proof.
  intros H1 H2 H3 H4 H5.
  unfold pipelineBody. unfold_monad.
  rewrite H1, H2, H3, H4, H5. cbv zeta.
  destruct (markerVerified _); [reflexivity|].
  case_call; reflexivity.
Qed.

(** The marker check in the words of the claims. *)
Lemma markerVerified_iff (out : option string) :
  markerVerified (option_map trim out) = true <->
  exists marker, out = Some marker /\ trim marker <> EmptyString
                 /\ DatePrefixShape (trim marker).
Proof.
  destruct out as [marker|]; unfold markerVerified, option_map.
  - rewrite andb_true_iff, nonEmpty_iff, DATE_PREFIX_iff. split.
    + intros [? ?]. exists marker. auto.
    + intros (m & E & ? & ?). injection E as <-. auto.
  - split; [discriminate|intros (m & E & _); discriminate].
Qed.

(** C4. Once the pipeline was started and waited for and the marker read
    back without an exception, the invocation returns a result, and the
    result is a success exactly when the trimmed stdout of the marker read
    is not empty and has the date-prefix shape.  The stage gives the same
    outcome whatever [proc.status] and [proc.exitCode] hold: it never reads
    them. *)
Theorem success_iff_marker_verified env w (configDir : string) w3 proc w4 w5
  timestampProc w6 w7 timestampLogs w8 :
  reachesPipeline sandbox JSON_stringify env w configDir w3 ->
  sandbox_startProcess sandbox (syncCmd R2_MOUNT_PATH configDir) w3
  = (Ok proc, w4) ->
  call_waitForProcess sandbox proc 30000 None w4 = (Ok tt, w5) ->
  sandbox_startProcess sandbox (markerReadCmd R2_MOUNT_PATH) w5
  = (Ok timestampProc, w6) ->
  call_waitForProcess sandbox timestampProc 5000 None w6 = (Ok tt, w7) ->
  proc_getLogs sandbox timestampProc w7 = (Ok timestampLogs, w8) ->
  (exists r w',
     sync env w = (Ok r, w')
     /\ (success r = true <->
         exists marker,
           logs_stdout timestampLogs = Some marker
           /\ trim marker <> EmptyString
           /\ DatePrefixShape (trim marker))
     /\ (success r = true ->
         lastSync r = option_map trim (logs_stdout timestampLogs)))
  /\ (forall status' exitCode',
        pipelineStage (withProcessFields sandbox status' exitCode')
          R2_MOUNT_PATH configDir
        = pipelineStage sandbox R2_MOUNT_PATH configDir).
Proof.
  intros Hr H1 H2 H3 H4 H5. split; [|reflexivity].
  rewrite (syncToR2_from_pipeline _ _ _ _ _ _ _ Hr).
  unfold settle. rewrite pipelineStage_unfold.
  rewrite (pipelineBody_after_read _ _ _ _ _ _ _ _ _ _ H1 H2 H3 H4 H5).
  cbv zeta.
  pose proof (markerVerified_iff (logs_stdout timestampLogs)) as Hm.
  destruct (markerVerified (option_map trim (logs_stdout timestampLogs))).
  - eexists _, _. split; [reflexivity|]. simpl.
    split; [exact Hm|reflexivity].
  - case_call; eexists _, _; (split; [reflexivity|]); simpl;
      (split; [exact Hm|discriminate]).
Qed.


(** Results returned by the first two stages are failures. *)
Lemma configStage_returns_failure w :
  match configStage sandbox JSON_stringify w with
  | (Return r, _) => success r = false
  | _ => True
  end.
Proof.
  rewrite configStage_unfold.
  case_call; [|reflexivity].
  destruct (exists_ a); [exact I|].
  case_call; [|reflexivity].
  destruct (exists_ a0); [exact I|].
  case_call; reflexivity.
Qed.

Lemma rsyncCheckStage_returns_failure w :
  match rsyncCheckStage sandbox JSON_stringify w with
  | (Return r, _) => success r = false
  | _ => True
  end.
Proof.
  rewrite rsyncCheckStage_unfold.
  case_call; [|reflexivity].
  destruct (negb (didComplete a)); [reflexivity|].
  destruct (negb (exitCodeIs (exitCode a) 0)
            || String.eqb (trim (stdout a)) EmptyString);
    [reflexivity|exact I].
Qed.

(** A success of the pipeline stage was granted by the marker check. *)
Lemma pipelineStage_success (configDir : string) w :
  match pipelineStage sandbox R2_MOUNT_PATH configDir w with
  | (Return r, w') =>
      success r = true ->
      exists timestampProc ws timestampLogs,
        proc_getLogs sandbox timestampProc ws = (Ok timestampLogs, w')
        /\ markerVerified (option_map trim (logs_stdout timestampLogs)) = true
        /\ lastSync r = option_map trim (logs_stdout timestampLogs)
  | _ => True
  end.
Proof.
  unfold pipelineStage, pipelineBody. unfold_monad.
  repeat (case_call; [|discriminate]).
  destruct (markerVerified _) eqn:Hv.
  - intros _. eauto 6.
  - case_call; discriminate.
Qed.

(** A successful invocation went through the three stages. *)
Lemma syncToR2_success env w r w' :
  sync env w = (Ok r, w') ->
  success r = true ->
  exists (configDir : string) w3,
    reachesPipeline sandbox JSON_stringify env w configDir w3
    /\ pipelineStage sandbox R2_MOUNT_PATH configDir w3 = (Return r, w').
Proof.
  rewrite syncToR2_unfold. intros H Hs.
  destruct (credentialsMissing env) eqn:Hc.
  { injection H as <- _. discriminate. }
  destruct (call_mountR2Storage sandbox env w) as [[|] w1] eqn:Hm.
  2:{ injection H as <- _. discriminate. }
  unfold settle, bind in H.
  pose proof (configStage_returns_failure w1) as Hcf.
  destruct (configStage_completes sandbox JSON_stringify w1)
    as [(dir & w2 & Hcs)|(r1 & w2 & Hcs)]; rewrite Hcs in H, Hcf.
  2:{ injection H as <- _. congruence. }
  pose proof (rsyncCheckStage_returns_failure w2) as Hrf.
  destruct (rsyncCheckStage_completes sandbox JSON_stringify w2)
    as [(w3 & Hrs)|(r2 & w3 & Hrs)]; rewrite Hrs in H, Hrf.
  2:{ injection H as <- _. congruence. }
  destruct (pipelineStage_returns sandbox R2_MOUNT_PATH dir w3)
    as (r3 & w4 & Hps).
  rewrite Hps in H. injection H as <- <-.
  exists dir, w3. split; [|exact Hps].
  exists w2. split; [|exact Hrs]. exists w1. repeat split; assumption.
Qed.

(** C8. The marker check accepts "2024-01-01T00:00:00+00:00" and rejects
    "not-a-date" and the empty string; the pattern it applies is the
    date-prefix shape anchored at the start; and a successful invocation
    carries as [lastSync] the trimmed marker it read, which has that
    shape. *)
Theorem marker_shape_validated :
  (markerVerified (option_map trim (Some "2024-01-01T00:00:00+00:00")) = true
   /\ markerVerified (option_map trim (Some "not-a-date")) = false
   /\ markerVerified (option_map trim (Some EmptyString)) = false)
  /\ (forall s : string,
        matchAnchored DATE_PREFIX s = true <-> DatePrefixShape s)
  /\ (forall env w r w',
        sync env w = (Ok r, w') ->
        success r = true ->
        exists timestampProc ws marker err,
          proc_getLogs sandbox timestampProc ws
          = (Ok (mkLogs (Some marker) err), w')
          /\ lastSync r = Some (trim marker)
          /\ DatePrefixShape (trim marker)).
Proof.
  split; [repeat split; reflexivity|].
  split; [exact DATE_PREFIX_iff|].
  intros env w r w' H Hs.
  destruct (syncToR2_success _ _ _ _ H Hs) as (dir & w3 & _ & Hp).
  pose proof (pipelineStage_success dir w3) as Hps.
  rewrite Hp in Hps.
  destruct (Hps Hs) as (tp & ws & [out err] & Hg & Hv & Hl).
  apply markerVerified_iff in Hv as (marker & E & _ & Hshape).
  simpl in E. subst out. simpl in Hl.
  exists tp, ws, marker, err. auto.
Qed.

(** C6. The result of [checkConfigPath] carries the result of the stat
    command, and its [exists] holds exactly when that command completed,
    exited with code 0 and printed the probed path: an exit code of 0 with
    an incomplete command or without the path on stdout leaves [exists]
    false. *)
Theorem exists_requires_completion_code_and_path (p : string) w r w' :
  checkConfigPath sandbox p w = (Ok r, w') ->
  runCommandWithDetails sandbox (configCheckCommand p)
    CONFIG_CHECK_TIMEOUT_MS w = (Ok (base r), w')
  /\ path r = p
  /\ (exists_ r = true <->
      didComplete (base r) = true
      /\ exitCode (base r) = Some 0
      /\ Contains (stdout (base r)) p).
Proof.
  rewrite checkConfigPath_unfold.
  destruct (runCommandWithDetails _ _ _ _) as [[result|e] w1];
    [|discriminate].
  intros H. injection H as <- <-. simpl.
  split; [reflexivity|]. split; [reflexivity|].
  rewrite !andb_true_iff, includes_iff.
  assert (Hx : exitCodeIs (exitCode result) 0 = true
               <-> exitCode result = Some 0).
  { destruct (exitCode result) as [n|]; simpl.
    - rewrite Z.eqb_eq. split; congruence.
    - split; discriminate. }
  rewrite Hx. tauto.
Qed.

(** What a run of [runCommandWithDetails] that returns has fetched. *)
Lemma runCommandWithDetails_result (cmd : string) (timeoutMs : Z) w r w' :
  runCommandWithDetails sandbox cmd timeoutMs w = (Ok r, w') ->
  exists proc ws logs,
    proc_getLogs sandbox proc ws = (Ok logs, w')
    /\ r = commandResultOf sandbox cmd (clock w) proc logs w'.
Proof.
  rewrite runCommandWithDetails_unfold.
  destruct (sandbox_startProcess _ _ _) as [[proc|e] w1]; [|discriminate].
  destruct (call_waitForProcess _ _ _ _ _) as [[[]|e] w2]; [|discriminate].
  destruct (proc_getLogs _ _ _) as [[logs|e] w3] eqn:Hg; [|discriminate].
  intros H. injection H as <- <-. eauto.
Qed.

(** C3, as the code has it.  The [stdout] and [stderr] of the
    [CommandResult] returned by [runCommandWithDetails] are the fetched
    streams themselves (the empty string for an undefined one), of any
    length.  The cap is applied by [truncateOutput] when a result is
    formatted for the diagnostics: [formatCommandResult] lists the two
    streams capped, each on its own; a stream of 2500 characters becomes its
    first 2000 characters followed by the marker and one of 1999 characters
    is unchanged. *)
Theorem streams_capped_when_formatted :
  (forall (cmd : string) (timeoutMs : Z) w r w',
      runCommandWithDetails sandbox cmd timeoutMs w = (Ok r, w') ->
      exists proc ws logs,
        proc_getLogs sandbox proc ws = (Ok logs, w')
        /\ stdout r = orElse (logs_stdout logs) EmptyString
        /\ stderr r = orElse (logs_stderr logs) EmptyString)
  /\ (forall (r : CommandResult) (out err : string),
        In ("stdout", JStr out) (formatCommandResultFields r) ->
        In ("stderr", JStr err) (formatCommandResultFields r) ->
        Capped (stdout r) out /\ Capped (stderr r) err)
  /\ (forall v : string,
        jsLength v = 2500 ->
        truncateOutput v = slice0 2000 v ++ truncationMarker
        /\ jsLength (slice0 2000 v) = 2000)
  /\ (forall v : string, jsLength v = 1999 -> truncateOutput v = v).
Proof.
  split; [|split; [|split]].
  - intros cmd timeoutMs w r w' H.
    destruct (runCommandWithDetails_result _ _ _ _ _ H)
      as (proc & ws & logs & Hg & ->).
    exists proc, ws, logs. auto.
  - intros r out err Ho He. simpl in Ho, He.
    repeat match goal with
           | H : _ \/ _ |- _ => destruct H as [H|H]
           | H : (_, _) = (_, _) |- _ => try discriminate H; injection H as H
           | H : False |- _ => destruct H
           end; subst; split; apply truncateOutput_capped.
  - intros v Hv. unfold truncateOutput, MAX_LOG_CHARS.
    destruct (Z.leb_spec (jsLength v) 2000); [lia|].
    split; [reflexivity|].
    unfold slice0, jsLength in *. rewrite length_take. lia.
  - intros v Hv. unfold truncateOutput, MAX_LOG_CHARS.
    destruct (Z.leb_spec (jsLength v) 2000); [reflexivity|lia].
Qed.

End Orchestrator.

(** ** The pipeline command *)

Section Pipeline.

Variable R2_MOUNT_PATH : string.
Variable configDir : string.

(** The command of the source is the [&&] chain of the steps. *)
Lemma syncCmd_is_pipeline :
  syncCmd R2_MOUNT_PATH configDir
  = renderPipeline (syncPipeline R2_MOUNT_PATH configDir).
Proof.
  unfold syncCmd, renderPipeline, syncPipeline, renderStep, renderRsync.
  cbn [map String.concat].
  rewrite !append_assoc. reflexivity.
Qed.

(** C9, as the code has it.  The command is the chain of four rsync steps
    and the marker write; every rsync step mirrors its source ([--delete])
    and leaves modification times alone ([--no-times], no flag asking for
    them); the [*.lock], [*.log] and [*.tmp] exclusions are on the config
    step only, the two workspace steps exclude [skills] and the skills step
    excludes nothing. *)
Theorem rsync_steps_mirror_without_times :
  syncCmd R2_MOUNT_PATH configDir
  = renderPipeline (syncPipeline R2_MOUNT_PATH configDir)
  /\ Forall (fun flags => mirrors flags = true
                          /\ preservesTimes flags = false
                          /\ hasFlag "--no-times" flags = true)
       (rsyncFlags (syncPipeline R2_MOUNT_PATH configDir))
  /\ map excludesTransient (rsyncFlags (syncPipeline R2_MOUNT_PATH configDir))
     = [true; false; false; false]
  /\ map (excludes "skills")
       (rsyncFlags (syncPipeline R2_MOUNT_PATH configDir))
     = [false; true; true; false].
Proof.
  split; [exact syncCmd_is_pipeline|].
  split; [|split; reflexivity].
  repeat constructor.
Qed.

End Pipeline.

(** ** The claims on the scripted sandbox *)

Import Mock Scenario.

Local Notation "'scripted' table" := (sandboxOf (scriptOf table) true)
  (at level 10, table at level 9).

(** Without the access key nothing is called. *)
Lemma syncToR2_not_configured_witness :
  run [] true envWithoutKey
  = (Ok (failure "R2 storage is not configured" None), start).
Proof.
  exact (proj1 (syncToR2_not_configured (scripted []) mountPath stringify
                  envWithoutKey start (or_introl eq_refl))).
Defined.

(** The new-path probe hangs and the legacy probe completes without finding
    the file. *)
Lemma config_check_incomplete_witness :
  exists d w',
    run newProbeHangs true env
    = (Ok (failure "Sync aborted: config check did not complete" (Some d)),
       w').
Proof.
  edestruct (config_check_incomplete (scripted newProbeHangs) mountPath
               stringify env start) as (fsContext & w' & H).
  - split; reflexivity.
  - vm_compute; reflexivity.
  - vm_compute; reflexivity.
  - vm_compute; reflexivity.
  - vm_compute; reflexivity.
  - left. reflexivity.
  - eexists _, _. exact H.
Defined.

Lemma legacy_config_chosen_witness :
  exists w3,
    configStage (scripted onlyLegacy) stringify
      (snd (call_mountR2Storage (scripted onlyLegacy) env start))
    = (Normal "/root/.clawdbot", w3).
Proof.
  edestruct (legacy_config_chosen (scripted onlyLegacy) mountPath stringify
               env start) as [H _].
  - split; reflexivity.
  - vm_compute; reflexivity.
  - vm_compute; reflexivity.
  - vm_compute; reflexivity.
  - vm_compute; reflexivity.
  - eexists. exact H.
Defined.


(** The pipeline exits with code 23, the marker of an earlier run has the
    shape: the invocation succeeds. *)
Lemma success_iff_marker_verified_witness :
  exists r w',
    run staleMarker true env = (Ok r, w')
    /\ success r = true
    /\ lastSync r = Some "2024-06-01T10:00:00Z"
    /\ procExitCode (scripted staleMarker) syncCommand tt = Some 23.
Proof.
  edestruct (success_iff_marker_verified (scripted staleMarker) mountPath
               stringify env start) as ((r & w' & H & Hiff & Hlast) & _).
  - eexists. split.
    + eexists. split; [split; reflexivity|vm_compute; reflexivity].
    + vm_compute; reflexivity.
  - vm_compute; reflexivity.
  - vm_compute; reflexivity.
  - vm_compute; reflexivity.
  - vm_compute; reflexivity.
  - vm_compute; reflexivity.
  - assert (Hs : success r = true).
    { apply Hiff. apply markerVerified_iff. reflexivity. }
    exists r, w'. repeat split; [exact H|exact Hs|exact (Hlast Hs)].
Defined.


Lemma marker_shape_validated_witness :
  exists r w' marker,
    run staleMarker true env = (Ok r, w')
    /\ lastSync r = Some (trim marker)
    /\ DatePrefixShape (trim marker).
Proof.
  edestruct (proj2 (proj2 (marker_shape_validated (scripted staleMarker)
                             mountPath stringify)) env start)
    as (tp & ws & marker & err & _ & Hl & Hshape).
  - vm_compute; reflexivity.
  - vm_compute; reflexivity.
  - eexists _, _, marker. split; [vm_compute; reflexivity|]. split; assumption.
Defined.

Lemma exists_requires_completion_code_and_path_witness :
  exists r w',
    checkConfigPath (scripted silentRsyncCheck) OPENCLAW_CONFIG_PATH start
    = (Ok r, w')
    /\ didComplete (base r) = true
    /\ exitCode (base r) = Some 0
    /\ Contains (stdout (base r)) OPENCLAW_CONFIG_PATH.
Proof.
  edestruct (exists_requires_completion_code_and_path
               (scripted silentRsyncCheck) OPENCLAW_CONFIG_PATH start)
    as (_ & _ & Hiff).
  - vm_compute; reflexivity.
  - eexists _, _. split; [reflexivity|]. apply Hiff. reflexivity.
Defined.

(** A command printing 2500 characters: the result carries them all, the
    formatted diagnostics carry the first 2000 and the marker. *)
Lemma streams_capped_when_formatted_witness :
  (exists r w',
     runCommandWithDetails (scripted noisy) noisyCommand 5000 start
     = (Ok r, w')
     /\ stdout r = longOutput)
  /\ truncateOutput longOutput = replicate 2000 "x" ++ truncationMarker.
Proof.
  pose proof (streams_capped_when_formatted (scripted noisy)) as (H1 & _ & H3 & _).
  split.
  - edestruct (H1 noisyCommand 5000 start) as (proc & ws & logs & _ & Ho & _).
    + reflexivity.
    + eexists _, _. split; [reflexivity|]. reflexivity.
  - destruct (H3 longOutput eq_refl) as [-> _]. reflexivity.
Defined.

(** C3 as stated fails: the [stdout] of the [CommandResult] returned for a
    command printing 2500 characters has 2500 characters; it is not a capped
    stream. *)
Lemma returned_stdout_not_capped :
  exists r w',
    runCommandWithDetails (scripted noisy) noisyCommand 5000 start = (Ok r, w')
    /\ jsLength (stdout r) = 2500
    /\ ~ Capped longOutput (stdout r).
Proof.
  eexists _, _. split; [reflexivity|]. split; [reflexivity|].
  intros [_ H]. destruct H as (head & Hl & _ & E); [reflexivity|].
  apply (f_equal String.length) in E. rewrite length_append in E.
  unfold jsLength in Hl.
  change (String.length (stdout _)) with 2500%nat in E.
  change (String.length truncationMarker) with 15%nat in E.
  unfold MAX_LOG_CHARS in Hl. lia.
Qed.

(** C9 as stated fails: the workspace and skills steps do not exclude
    [*.lock], [*.log] and [*.tmp]. *)
Lemma workspace_steps_keep_transient_files :
  map mirrorsWithoutTransient
    (rsyncFlags (syncPipeline mountPath "/root/.openclaw"))
  = [true; false; false; false]
  /\ ~ Forall (fun flags => mirrorsWithoutTransient flags = true)
         (rsyncFlags (syncPipeline mountPath "/root/.openclaw")).
Proof.
  split; [reflexivity|].
  intros H. inversion H as [|? ? _ H']. inversion H' as [|? ? Hbad _].
  discriminate Hbad.
Qed.

(** * Further properties *)

(** ** More on strings *)

Lemma take_append_exact (a b : string) :
  take (String.length a) (a ++ b) = a.
Proof.
  induction a as [|c a IH]; simpl; [now destruct b|now rewrite IH].
Qed.

(** X2. The formatted stream is never longer than the cap and the marker. *)
Theorem truncateOutput_length_bounded (value : string) :
  jsLength (truncateOutput value)
  <= MAX_LOG_CHARS + jsLength truncationMarker
  /\ jsLength (truncateOutput value) <= jsLength value + jsLength truncationMarker
  /\ (jsLength (truncateOutput value) <= MAX_LOG_CHARS
      <-> jsLength value <= MAX_LOG_CHARS).
Proof.
  unfold truncateOutput.
  change (jsLength truncationMarker) with 15.
  destruct (Z.leb_spec (jsLength value) MAX_LOG_CHARS) as [H|H].
  - lia.
  - assert (E : jsLength (slice0 MAX_LOG_CHARS value ++ truncationMarker)
                = MAX_LOG_CHARS + 15).
    { unfold jsLength, slice0 in *. rewrite length_append, length_take.
      change (String.length truncationMarker) with 15%nat.
      unfold MAX_LOG_CHARS in *. lia. }
    rewrite E. unfold MAX_LOG_CHARS in *. lia.
Qed.

(** X3. Truncating twice is truncating once. *)
Theorem truncateOutput_idempotent (value : string) :
  truncateOutput (truncateOutput value) = truncateOutput value.
Proof.
  destruct (Z.leb_spec (jsLength value) MAX_LOG_CHARS) as [H|H].
  - assert (E : truncateOutput value = value).
    { unfold truncateOutput.
      destruct (Z.leb_spec (jsLength value) MAX_LOG_CHARS); [reflexivity|lia]. }
    now rewrite !E.
  - set (head := slice0 MAX_LOG_CHARS value).
    assert (E : truncateOutput value = head ++ truncationMarker).
    { unfold truncateOutput.
      destruct (Z.leb_spec (jsLength value) MAX_LOG_CHARS); [lia|reflexivity]. }
    assert (Hl : String.length head = 2000%nat).
    { unfold head, slice0, jsLength, MAX_LOG_CHARS in *.
      rewrite length_take. lia. }
    rewrite E. unfold truncateOutput.
    destruct (Z.leb_spec (jsLength (head ++ truncationMarker)) MAX_LOG_CHARS)
      as [H'|H'].
    + unfold jsLength, MAX_LOG_CHARS in H'. rewrite length_append, Hl in H'.
      change (String.length truncationMarker) with 15%nat in H'. lia.
    + f_equal. unfold slice0, MAX_LOG_CHARS.
      replace (Z.to_nat 2000) with (String.length head)
        by (rewrite Hl; reflexivity).
      apply take_append_exact.
Qed.

(** ** shellEscapeArg *)

Lemma shellWordValue_quoted (value rest : string) :
  shellWordValue true (replaceQuote "'\''" value ++ rest)
  = option_map (append value) (shellWordValue true rest).
Proof.
  induction value as [|c value IH]; simpl.
  - destruct (shellWordValue true rest); reflexivity.
  - destruct (Ascii.eqb c "'"%char) eqn:E.
    + apply Ascii.eqb_eq in E. subst c. cbn.
      rewrite IH. destruct (shellWordValue true rest); reflexivity.
    + cbn. rewrite E, IH.
      destruct (shellWordValue true rest); reflexivity.
Qed.

(** X1. The shell reads the escaped argument as one word whose value is the
    argument. *)
Theorem shellEscapeArg_roundtrip (value : string) :
  shellWordValue false (shellEscapeArg value) = Some value.
Proof.
  unfold shellEscapeArg. cbn.
  rewrite shellWordValue_quoted. cbn. now rewrite append_empty_r.
Qed.

(** ** Traces of the stages *)

Section Traces.

Context {St Proc : Type}.
Variable sandbox : Sandbox St Proc.
Variable R2_MOUNT_PATH : string.
Variable JSON_stringify : Json -> Z -> string.

Implicit Types (w : World St Proc) (proc : Proc) (env : MoltbotEnv)
  (allowed : list string).

Lemma StartsOnly_refl allowed w : StartsOnly allowed w w.
Proof.
  exists []. split; [now rewrite app_nil_r|intros x []].
Qed.

Lemma StartsOnly_trans allowed w w1 w2 :
  StartsOnly allowed w w1 -> StartsOnly allowed w1 w2 ->
  StartsOnly allowed w w2.
Proof.
  intros (t1 & E1 & I1) (t2 & E2 & I2). exists (t1 ++ t2)%list. split.
  - now rewrite E2, E1, app_assoc.
  - unfold startedCommands in *. rewrite flat_map_app.
    now apply incl_app.
Qed.

Lemma StartsOnly_weaken allowed allowed' w w' :
  incl allowed allowed' -> StartsOnly allowed w w' ->
  StartsOnly allowed' w w'.
Proof.
  intros I (tr & E & J). exists tr. split; [exact E|].
  intros x Hx. auto.
Qed.

Lemma remote_trace {A} allowed (c : Call Proc) (op : St -> Reply St A) w a w' :
  incl (startedCommands [c]) allowed ->
  remote c op w = (a, w') -> StartsOnly allowed w w'.
Proof.
  intros I H. unfold remote in H. injection H as _ <-.
  exists [c]. split; [reflexivity|exact I].
Qed.

Lemma startProcess_trace allowed (cmd : string) w o w' :
  In cmd allowed ->
  sandbox_startProcess sandbox cmd w = (o, w') -> StartsOnly allowed w w'.
Proof.
  intros I. apply remote_trace. intros x [<-|[]]. exact I.
Qed.

Lemma waitForProcess_trace allowed proc (t : Z) (p : option Z) w o w' :
  call_waitForProcess sandbox proc t p w = (o, w') -> StartsOnly allowed w w'.
Proof. apply remote_trace. intros x []. Qed.

Lemma getLogs_trace allowed proc w o w' :
  proc_getLogs sandbox proc w = (o, w') -> StartsOnly allowed w w'.
Proof. apply remote_trace. intros x []. Qed.

Lemma mount_trace allowed env w b w' :
  call_mountR2Storage sandbox env w = (b, w') -> StartsOnly allowed w w'.
Proof. apply remote_trace. intros x []. Qed.

Lemma pollLoop_trace allowed proc (deadline : Z) w :
  StartsOnly allowed w (pollLoop sandbox proc deadline w).
Proof.
  exists []. split; [|intros x []].
  unfold pollLoop. now rewrite pollFuel_calls, app_nil_r.
Qed.

Lemma runCommandWithDetails_trace allowed (cmd : string) (t : Z) w o w' :
  In cmd allowed ->
  runCommandWithDetails sandbox cmd t w = (o, w') -> StartsOnly allowed w w'.
Proof.
  intros I. rewrite runCommandWithDetails_unfold.
  destruct (sandbox_startProcess _ _ _) as [[proc|e] w1] eqn:H1.
  2:{ intros H. injection H as _ <-. eapply startProcess_trace; eauto. }
  apply (startProcess_trace allowed) in H1; [|exact I].
  destruct (call_waitForProcess _ _ _ _ _) as [[[]|e] w2] eqn:H2;
    apply (waitForProcess_trace allowed) in H2.
  2:{ intros H. injection H as _ <-. eapply StartsOnly_trans; eauto. }
  destruct (proc_getLogs _ _ _) as [[logs|e] w3] eqn:H3;
    apply (getLogs_trace allowed) in H3;
    intros H; injection H as _ <-;
    repeat (eapply StartsOnly_trans; [eassumption|]);
    (eapply StartsOnly_trans; [apply pollLoop_trace|exact H3]).
Qed.

Lemma checkConfigPath_trace allowed (p : string) w o w' :
  In (configCheckCommand p) allowed ->
  checkConfigPath sandbox p w = (o, w') -> StartsOnly allowed w w'.
Proof.
  intros I. rewrite checkConfigPath_unfold.
  destruct (runCommandWithDetails _ _ _ _) as [[r|e] w1] eqn:H1;
    apply (runCommandWithDetails_trace allowed) in H1; try exact I;
    intros H; injection H as _ <-; exact H1.
Qed.

Lemma collectFilesystemContext_trace allowed w o w' :
  In filesystemContextCommand allowed ->
  collectFilesystemContext sandbox w = (o, w') -> StartsOnly allowed w w'.
Proof.
  intros I. rewrite collectFilesystemContext_unfold.
  destruct (runCommandWithDetails _ _ _ _) as [[r|e] w1] eqn:H1;
    apply (runCommandWithDetails_trace allowed) in H1; try exact I;
    intros H; injection H as _ <-; exact H1.
Qed.

Lemma probe_new : In (configCheckCommand OPENCLAW_CONFIG_PATH) probeCommands.
Proof. apply in_eq. Qed.

Lemma probe_legacy :
  In (configCheckCommand CLAWDBOT_CONFIG_PATH) probeCommands.
Proof. apply in_cons, in_eq. Qed.

Lemma probe_filesystem : In filesystemContextCommand probeCommands.
Proof. do 2 apply in_cons. apply in_eq. Qed.

Lemma probe_rsync : In rsyncCheckCommand probeCommands.
Proof. do 3 apply in_cons. apply in_eq. Qed.

Lemma configStage_trace w c w' :
  configStage sandbox JSON_stringify w = (c, w') ->
  StartsOnly probeCommands w w'.
Proof.
  rewrite configStage_unfold.
  destruct (checkConfigPath _ OPENCLAW_CONFIG_PATH _) as [[cn|e] w1] eqn:H1;
    apply (checkConfigPath_trace probeCommands) in H1;
    try exact probe_new.
  2:{ intros H. injection H as _ <-. exact H1. }
  destruct (exists_ cn).
  { intros H. injection H as _ <-. exact H1. }
  destruct (checkConfigPath _ CLAWDBOT_CONFIG_PATH _) as [[cl|e] w2] eqn:H2;
    apply (checkConfigPath_trace probeCommands) in H2;
    try exact probe_legacy.
  2:{ intros H. injection H as _ <-. eapply StartsOnly_trans; eauto. }
  destruct (exists_ cl).
  { intros H. injection H as _ <-. eapply StartsOnly_trans; eauto. }
  destruct (collectFilesystemContext _ _) as [[fs|e] w3] eqn:H3;
    apply (collectFilesystemContext_trace probeCommands) in H3;
    try exact probe_filesystem;
    intros H; injection H as _ <-;
    (eapply StartsOnly_trans; [|exact H3]); eapply StartsOnly_trans; eauto.
Qed.

Lemma rsyncCheckStage_trace w c w' :
  rsyncCheckStage sandbox JSON_stringify w = (c, w') ->
  StartsOnly probeCommands w w'.
Proof.
  rewrite rsyncCheckStage_unfold.
  destruct (runCommandWithDetails _ _ _ _) as [[r|e] w1] eqn:H1;
    apply (runCommandWithDetails_trace probeCommands) in H1;
    try exact probe_rsync.
  2:{ intros H. injection H as _ <-. exact H1. }
  destruct (negb (didComplete r)).
  { intros H. injection H as _ <-. exact H1. }
  destruct (negb (exitCodeIs (exitCode r) 0)
            || String.eqb (trim (stdout r)) EmptyString);
    intros H; injection H as _ <-; exact H1.
Qed.

(** The config discovery ends with one of the two directories. *)
Lemma configStage_dir w (dir : string) w' :
  configStage sandbox JSON_stringify w = (Normal dir, w') ->
  In dir configDirs.
Proof.
  rewrite configStage_unfold.
  destruct (checkConfigPath _ OPENCLAW_CONFIG_PATH _) as [[cn|e] w1];
    [|discriminate].
  destruct (exists_ cn).
  { intros H. injection H as <- _. simpl. auto. }
  destruct (checkConfigPath _ CLAWDBOT_CONFIG_PATH _) as [[cl|e] w2];
    [|discriminate].
  destruct (exists_ cl).
  { intros H. injection H as <- _. simpl. auto. }
  destruct (collectFilesystemContext _ _) as [[fs|e] w3]; discriminate.
Qed.

(** What the first two stages return is a failure with one of the early
    classifications. *)
Lemma configStage_returns_early w r w' :
  configStage sandbox JSON_stringify w = (Return r, w') ->
  success r = false /\ lastSync r = None
  /\ exists e, error r = Some e /\ In e earlyErrors.
Proof.
  rewrite configStage_unfold.
  destruct (checkConfigPath _ OPENCLAW_CONFIG_PATH _) as [[cn|e] w1].
  2:{ intros H. injection H as <- _. simpl. eauto 12. }
  destruct (exists_ cn); [discriminate|].
  destruct (checkConfigPath _ CLAWDBOT_CONFIG_PATH _) as [[cl|e] w2].
  2:{ intros H. injection H as <- _. simpl. eauto 12. }
  destruct (exists_ cl); [discriminate|].
  destruct (collectFilesystemContext _ _) as [[fs|e] w3].
  2:{ intros H. injection H as <- _. simpl. eauto 12. }
  intros H. injection H as <- _.
  destruct (negb (didComplete (base cn)) || negb (didComplete (base cl)));
    simpl; eauto 12.
Qed.

Lemma rsyncCheckStage_returns_early w r w' :
  rsyncCheckStage sandbox JSON_stringify w = (Return r, w') ->
  success r = false /\ lastSync r = None
  /\ exists e, error r = Some e /\ In e earlyErrors.
Proof.
  rewrite rsyncCheckStage_unfold.
  destruct (runCommandWithDetails _ _ _ _) as [[rc|e] w1].
  2:{ intros H. injection H as <- _. simpl. eauto 14. }
  destruct (negb (didComplete rc)).
  { intros H. injection H as <- _. simpl. eauto 14. }
  destruct (negb (exitCodeIs (exitCode rc) 0)
            || String.eqb (trim (stdout rc)) EmptyString); [|discriminate].
  intros H. injection H as <- _. simpl. eauto 14.
Qed.

End Traces.

(** ** More on the orchestrator *)

Section MoreOrchestrator.

Context {St Proc : Type}.
Variable sandbox : Sandbox St Proc.
Variable R2_MOUNT_PATH : string.
Variable JSON_stringify : Json -> Z -> string.

Implicit Types (w : World St Proc) (proc : Proc) (env : MoltbotEnv).

Local Notation "'sync'" :=
  (syncToR2 sandbox R2_MOUNT_PATH JSON_stringify).

Lemma pollFuel_clock (n : nat) proc (deadline : Z) w :
  (exists k : nat,
      clock (pollFuel sandbox n proc deadline w)
      = clock w + POLL_INTERVAL_MS * Z.of_nat k)
  /\ (clock (pollFuel sandbox n proc deadline w) = clock w
      \/ clock (pollFuel sandbox n proc deadline w)
         < deadline + POLL_INTERVAL_MS).
Proof.
  revert w; induction n as [|n IH]; intros w; cbn [pollFuel];
    destruct (stillPolling sandbox proc deadline w) eqn:P;
    try (split; [exists 0%nat; lia|left; reflexivity]).
  unfold stillPolling in P. apply andb_prop in P as [_ P].
  apply Z.ltb_lt in P.
  destruct (IH (sleep sandbox POLL_INTERVAL_MS w)) as [[k Hk] Hb].
  assert (Hs : clock (sleep sandbox POLL_INTERVAL_MS w)
               = clock w + POLL_INTERVAL_MS) by reflexivity.
  rewrite Hs in Hk, Hb. split.
  - exists (S k). lia.
  - right. unfold POLL_INTERVAL_MS in *. lia.
Qed.


Lemma remote_world {A} (c : Call Proc) (op : St -> Reply St A) w a w' :
  remote c op w = (a, w') ->
  clock w <= clock w' /\ calls w' = (calls w ++ [c])%list.
Proof.
  unfold remote. intros H. injection H as _ <-. simpl. split; [lia|reflexivity].
Qed.

(** X5. A run of [runCommandWithDetails] that returns a result has made three
    calls, in this order: the start of the command, the wait and one fetch
    of the logs.  Its result names the command, its duration is not
    negative, and [didComplete] holds exactly when the status read last is
    neither running nor starting and an exit code is there: an exit code
    with a status still running does not count. *)
Theorem runCommandWithDetails_result_shape (cmd : string) (timeoutMs : Z)
  w r w' :
  runCommandWithDetails sandbox cmd timeoutMs w = (Ok r, w') ->
  command r = cmd
  /\ 0 <= durationMs r
  /\ (didComplete r = true <->
      status r <> "running" /\ status r <> "starting"
      /\ exists n, exitCode r = Some n)
  /\ exists proc,
       calls w'
       = (calls w ++ [ CallStartProcess cmd;
                       CallWaitForProcess proc timeoutMs (Some POLL_INTERVAL_MS);
                       CallGetLogs proc ])%list.
Proof.
  rewrite runCommandWithDetails_unfold.
  destruct (sandbox_startProcess _ _ _) as [[proc|e] w1] eqn:H1;
    [|discriminate].
  destruct (call_waitForProcess _ _ _ _ _) as [[[]|e] w2] eqn:H2;
    [|discriminate].
  destruct (proc_getLogs _ _ _) as [[logs|e] w3] eqn:H3; [|discriminate].
  intros H. injection H as <- <-.
  apply remote_world in H1 as [C1 T1], H2 as [C2 T2], H3 as [C3 T3].
  pose proof (pollFuel_calls sandbox (Z.to_nat (clock w + timeoutMs - clock w2))
                proc (clock w + timeoutMs) w2) as Tp.
  destruct (pollFuel_clock (Z.to_nat (clock w + timeoutMs - clock w2))
              proc (clock w + timeoutMs) w2) as [[k Hk] _].
  fold (pollLoop sandbox proc (clock w + timeoutMs) w2) in Tp, Hk.
  split; [reflexivity|].
  split; [unfold commandResultOf, POLL_INTERVAL_MS in *; cbn [durationMs]; lia|].
  split.
  - unfold commandResultOf; cbn [didComplete status exitCode].
    rewrite !andb_true_iff, !negb_true_iff, !String.eqb_neq.
    destruct (procExitCode sandbox proc (sb w3)) as [n|]; cbn [isNumber].
    + split; [intros [[? ?] _]; eauto|intros (? & ? & _); auto].
    + split; [intros [_ ?]; discriminate
             |intros (_ & _ & [n Hn]); discriminate].
  - exists proc. rewrite T3, Tp, T2, T1, <- !app_assoc. reflexivity.
Qed.

(** X6. The filesystem probe never throws: it is fulfilled with the result of
    its command, or with the message of what the command threw, never with
    both and never with neither. *)
Theorem collectFilesystemContext_never_throws w :
  exists fsContext w',
    collectFilesystemContext sandbox w = (Ok fsContext, w')
    /\ ((exists result,
            runCommandWithDetails sandbox filesystemContextCommand
              CONFIG_CHECK_TIMEOUT_MS w = (Ok result, w')
            /\ fs_result fsContext = Some result
            /\ fs_error fsContext = None)
        \/ (exists e,
               runCommandWithDetails sandbox filesystemContextCommand
                 CONFIG_CHECK_TIMEOUT_MS w = (Threw e, w')
               /\ fs_result fsContext = None
               /\ fs_error fsContext = Some (errorMessage e))).
Proof.
  rewrite collectFilesystemContext_unfold.
  destruct (runCommandWithDetails _ _ _ _) as [[result|e] w1];
    eexists _, _; (split; [reflexivity|]); [left|right]; eauto.
Qed.

(** X7. When the mount collaborator answers false the invocation fails with
    'Failed to mount R2 storage' and the mount is the only call made. *)
Theorem mount_failure_stops_sync env w w1 :
  credentialsMissing env = false ->
  call_mountR2Storage sandbox env w = (false, w1) ->
  sync env w = (Ok (failure "Failed to mount R2 storage" None), w1)
  /\ calls w1 = (calls w ++ [CallMount env])%list.
Proof.
  intros Hc Hm. split.
  - now rewrite syncToR2_unfold, Hc, Hm.
  - now apply remote_world in Hm.
Qed.

(** X8. When the new config file exists the legacy path is not probed: the
    config discovery ends in the world the first probe left, with
    [/root/.openclaw], whatever the legacy probe would have answered. *)
Theorem new_config_first env w w1 checkNew w2 :
  reachesConfigStage sandbox env w w1 ->
  checkConfigPath sandbox OPENCLAW_CONFIG_PATH w1 = (Ok checkNew, w2) ->
  exists_ checkNew = true ->
  configStage sandbox JSON_stringify w1 = (Normal "/root/.openclaw", w2)
  /\ sync env w =
     settle (rsyncCheckStage sandbox JSON_stringify ;;;
             pipelineStage sandbox R2_MOUNT_PATH "/root/.openclaw") w2.
Proof.
  intros Hr Hn En.
  assert (Hc : configStage sandbox JSON_stringify w1
               = (Normal "/root/.openclaw", w2)).
  { now rewrite configStage_unfold, Hn, En. }
  split; [exact Hc|].
  apply syncToR2_from_rsyncCheck. exists w1. auto.
Qed.

(** X9. When both probes completed and neither found its file the invocation
    fails with 'Sync aborted: no config file found', and the diagnostics
    handed to [JSON.stringify] start with the two paths tried, the new one
    first. *)
Theorem no_config_found env w w1 checkNew w2 checkLegacy w3 :
  reachesConfigStage sandbox env w w1 ->
  checkConfigPath sandbox OPENCLAW_CONFIG_PATH w1 = (Ok checkNew, w2) ->
  checkConfigPath sandbox CLAWDBOT_CONFIG_PATH w2 = (Ok checkLegacy, w3) ->
  exists_ checkNew = false ->
  exists_ checkLegacy = false ->
  didComplete (base checkNew) = true ->
  didComplete (base checkLegacy) = true ->
  exists rest w',
    sync env w =
    (Ok (failure "Sync aborted: no config file found"
           (Some (JSON_stringify
                    (JObj (("triedPaths",
                            JArr [ JStr OPENCLAW_CONFIG_PATH;
                                   JStr CLAWDBOT_CONFIG_PATH ])
                           :: rest)) 2))), w').
Proof.
  intros Hr Hn Hl En El Dn Dl.
  destruct (collectFilesystemContext_total sandbox w3) as (fs & w' & Hfs).
  assert (Pn : path checkNew = OPENCLAW_CONFIG_PATH).
  { rewrite checkConfigPath_unfold in Hn.
    destruct (runCommandWithDetails _ _ _ _) as [[x|x] y]; [|discriminate].
    now injection Hn as <- _. }
  assert (Pl : path checkLegacy = CLAWDBOT_CONFIG_PATH).
  { rewrite checkConfigPath_unfold in Hl.
    destruct (runCommandWithDetails _ _ _ _) as [[x|x] y]; [|discriminate].
    now injection Hl as <- _. }
  eexists _, w'.
  apply (syncToR2_configStage_returns _ _ _ _ _ w1 _ _ Hr).
  rewrite configStage_unfold, Hn, En, Hl, El, Hfs, Dn, Dl.
  unfold buildConfigCheckDetails. cbn [map negb orb]. rewrite Pn, Pl.
  reflexivity.
Qed.

(** X10. An exception thrown by a config probe, the first or the second, ends
    the invocation with 'Failed to verify source files' and the message of
    the exception. *)
Theorem config_probe_exception env w w1 :
  reachesConfigStage sandbox env w w1 ->
  (forall e w2,
      checkConfigPath sandbox OPENCLAW_CONFIG_PATH w1 = (Threw e, w2) ->
      sync env w =
      (Ok (failure "Failed to verify source files"
             (Some (errorMessage e))), w2))
  /\ (forall checkNew w2 e w3,
        checkConfigPath sandbox OPENCLAW_CONFIG_PATH w1 = (Ok checkNew, w2) ->
        exists_ checkNew = false ->
        checkConfigPath sandbox CLAWDBOT_CONFIG_PATH w2 = (Threw e, w3) ->
        sync env w =
        (Ok (failure "Failed to verify source files"
               (Some (errorMessage e))), w3)).
Proof.
  intros Hr. split.
  - intros e w2 Hn.
    apply (syncToR2_configStage_returns _ _ _ _ _ w1 _ _ Hr).
    now rewrite configStage_unfold, Hn.
  - intros checkNew w2 e w3 Hn En Hl.
    apply (syncToR2_configStage_returns _ _ _ _ _ w1 _ _ Hr).
    now rewrite configStage_unfold, Hn, En, Hl.
Qed.

(** X11. When the marker read back is not verified the invocation fails with
    'Sync failed' and, as details, the stderr of the pipeline if it is not
    empty, else its stdout if that is not empty, else 'No timestamp file
    created'; if the logs of the pipeline cannot be fetched it fails with
    'Sync error'. *)
Theorem unverified_marker_fails env w (configDir : string) w3 proc w4 w5
  timestampProc w6 w7 timestampLogs w8 :
  reachesPipeline sandbox JSON_stringify env w configDir w3 ->
  sandbox_startProcess sandbox (syncCmd R2_MOUNT_PATH configDir) w3
  = (Ok proc, w4) ->
  call_waitForProcess sandbox proc 30000 None w4 = (Ok tt, w5) ->
  sandbox_startProcess sandbox (markerReadCmd R2_MOUNT_PATH) w5
  = (Ok timestampProc, w6) ->
  call_waitForProcess sandbox timestampProc 5000 None w6 = (Ok tt, w7) ->
  proc_getLogs sandbox timestampProc w7 = (Ok timestampLogs, w8) ->
  markerVerified (option_map trim (logs_stdout timestampLogs)) = false ->
  (forall logs w9,
      proc_getLogs sandbox proc w8 = (Ok logs, w9) ->
      exists d,
        sync env w = (Ok (failure "Sync failed" (Some d)), w9)
        /\ (truthy (logs_stderr logs) = true -> Some d = logs_stderr logs)
        /\ (truthy (logs_stderr logs) = false ->
            truthy (logs_stdout logs) = true -> Some d = logs_stdout logs)
        /\ (truthy (logs_stderr logs) = false ->
            truthy (logs_stdout logs) = false ->
            d = "No timestamp file created"))
  /\ (forall e w9,
        proc_getLogs sandbox proc w8 = (Threw e, w9) ->
        sync env w
        = (Ok (failure "Sync error" (Some (errorMessage e))), w9)).
Proof.
  intros Hr H1 H2 H3 H4 H5 Hv.
  rewrite (syncToR2_from_pipeline _ _ _ _ _ _ _ Hr).
  unfold settle. rewrite pipelineStage_unfold.
  rewrite (pipelineBody_after_read sandbox R2_MOUNT_PATH _ _ _ _ _ _ _ _ _ _
             H1 H2 H3 H4 H5).
  cbv zeta. rewrite Hv. split.
  - intros [out err] w9 Hg. rewrite Hg. eexists. split; [reflexivity|].
    simpl. destruct err as [[|c e]|]; destruct out as [[|c' o]|]; simpl;
      repeat split; intros; try discriminate; reflexivity.
  - intros e w9 Hg. now rewrite Hg.
Qed.

End MoreOrchestrator.

(** ** The result and the trace of an invocation *)

Ltac chain_traces :=
  repeat first
    [ eassumption
    | apply StartsOnly_refl
    | eapply StartsOnly_trans; [eassumption|] ].

Section Invocation.

Context {St Proc : Type}.
Variable sandbox : Sandbox St Proc.
Variable R2_MOUNT_PATH : string.
Variable JSON_stringify : Json -> Z -> string.

Implicit Types (w : World St Proc) (proc : Proc) (env : MoltbotEnv).

Local Notation "'sync'" :=
  (syncToR2 sandbox R2_MOUNT_PATH JSON_stringify).

(** What the pipeline stage returns: a success carrying a date-shaped
    marker, or one of its two failures with details; it starts nothing but
    the pipeline and the marker read. *)
Lemma pipelineStage_outcome (configDir : string) w r w' :
  pipelineStage sandbox R2_MOUNT_PATH configDir w = (Return r, w') ->
  StartsOnly [syncCmd R2_MOUNT_PATH configDir; markerReadCmd R2_MOUNT_PATH]
    w w'
  /\ ((success r = true /\ error r = None /\ details r = None
       /\ exists s, lastSync r = Some s /\ DatePrefixShape s)
      \/ (success r = false /\ lastSync r = None
          /\ (exists e, error r = Some e /\ In e pipelineErrors)
          /\ exists d, details r = Some d)).
Proof.
  set (allowed := [syncCmd R2_MOUNT_PATH configDir;
                   markerReadCmd R2_MOUNT_PATH]).
  assert (Ia : In (syncCmd R2_MOUNT_PATH configDir) allowed) by apply in_eq.
  assert (Ib : In (markerReadCmd R2_MOUNT_PATH) allowed)
    by apply in_cons, in_eq.
  assert (Failed : forall e d,
             In e pipelineErrors ->
             let r := failure e (Some d) in
             (success r = true /\ error r = None /\ details r = None
              /\ exists s, lastSync r = Some s /\ DatePrefixShape s)
             \/ (success r = false /\ lastSync r = None
                 /\ (exists e, error r = Some e /\ In e pipelineErrors)
                 /\ exists d, details r = Some d)).
  { intros e d He. right. simpl. eauto 8. }
  assert (Ie : In "Sync error" pipelineErrors) by apply in_cons, in_eq.
  assert (If : In "Sync failed" pipelineErrors) by apply in_eq.
  unfold pipelineStage, pipelineBody. unfold_monad.
  destruct (sandbox_startProcess _ _ _) as [[proc|e] w1] eqn:H1;
    apply (startProcess_trace sandbox allowed) in H1; try exact Ia.
  2:{ intros H. injection H as <- <-. split; [chain_traces|auto]. }
  destruct (call_waitForProcess _ _ _ _ _) as [[[]|e] w2] eqn:H2;
    apply (waitForProcess_trace sandbox allowed) in H2.
  2:{ intros H. injection H as <- <-. split; [chain_traces|auto]. }
  destruct (sandbox_startProcess _ _ _) as [[tproc|e] w3] eqn:H3;
    apply (startProcess_trace sandbox allowed) in H3; try exact Ib.
  2:{ intros H. injection H as <- <-. split; [chain_traces|auto]. }
  destruct (call_waitForProcess _ _ _ _ _) as [[[]|e] w4] eqn:H4;
    apply (waitForProcess_trace sandbox allowed) in H4.
  2:{ intros H. injection H as <- <-. split; [chain_traces|auto]. }
  destruct (proc_getLogs _ _ _) as [[tlogs|e] w5] eqn:H5;
    apply (getLogs_trace sandbox allowed) in H5.
  2:{ intros H. injection H as <- <-. split; [chain_traces|auto]. }
  destruct (markerVerified _) eqn:Hv.
  - intros H. injection H as <- <-. split; [chain_traces|].
    left. simpl. repeat split.
    apply markerVerified_iff in Hv as (marker & E & _ & Hs).
    rewrite E. simpl. eauto.
  - destruct (proc_getLogs _ _ _) as [[logs|e] w6] eqn:H6;
      apply (getLogs_trace sandbox allowed) in H6;
      intros H; injection H as <- <-; (split; [chain_traces|auto]).
Qed.

(** An invocation either returns early, with a failure of one of the early
    classifications and having started probes only, or enters the pipeline
    stage with one of the two config directories and returns what that
    stage returns. *)
Lemma syncToR2_outcome env w r w' :
  sync env w = (Ok r, w') ->
  (success r = false /\ lastSync r = None
   /\ (exists e, error r = Some e /\ In e earlyErrors)
   /\ StartsOnly probeCommands w w')
  \/ (exists (configDir : string) w3,
         In configDir configDirs
         /\ StartsOnly probeCommands w w3
         /\ pipelineStage sandbox R2_MOUNT_PATH configDir w3 = (Return r, w')).
Proof.
  rewrite syncToR2_unfold. intros H.
  destruct (credentialsMissing env).
  { injection H as <- <-. left. simpl.
    repeat split; [eauto 10|apply StartsOnly_refl]. }
  destruct (call_mountR2Storage sandbox env w) as [[|] w1] eqn:Hm;
    apply (mount_trace sandbox probeCommands) in Hm.
  2:{ injection H as <- <-. left. simpl.
      repeat split; [eauto 10|exact Hm]. }
  unfold settle, bind in H.
  destruct (configStage sandbox JSON_stringify w1) as [[dir|r1|e] w2] eqn:Hc.
  3:{ destruct (configStage_completes sandbox JSON_stringify w1)
        as [(? & ? & E)|(? & ? & E)]; rewrite E in Hc; discriminate. }
  2:{ injection H as <- <-. left.
      destruct (configStage_returns_early _ _ _ _ _ Hc) as (? & ? & ?).
      apply configStage_trace in Hc.
      repeat split; auto. chain_traces. }
  pose proof (configStage_dir _ _ _ _ _ Hc) as Hd.
  apply configStage_trace in Hc.
  destruct (rsyncCheckStage sandbox JSON_stringify w2) as [[[]|r2|e] w3] eqn:Hs.
  3:{ destruct (rsyncCheckStage_completes sandbox JSON_stringify w2)
        as [(? & E)|(? & ? & E)]; rewrite E in Hs; discriminate. }
  2:{ injection H as <- <-. left.
      destruct (rsyncCheckStage_returns_early _ _ _ _ _ Hs) as (? & ? & ?).
      apply rsyncCheckStage_trace in Hs.
      repeat split; auto. chain_traces. }
  apply rsyncCheckStage_trace in Hs.
  right. exists dir, w3. split; [exact Hd|]. split; [chain_traces|].
  destruct (pipelineStage_returns sandbox R2_MOUNT_PATH dir w3)
    as (r3 & w4 & Hp).
  rewrite Hp in H. injection H as <- <-. exact Hp.
Qed.

(** X12. The result of an invocation is well formed: a success has no error and
    no details and carries a date-shaped [lastSync]; a failure has no
    [lastSync] and carries one of the ten classifications. *)
Theorem syncToR2_result_well_formed env w r w' :
  sync env w = (Ok r, w') ->
  (success r = true ->
   error r = None /\ details r = None
   /\ exists s, lastSync r = Some s /\ DatePrefixShape s)
  /\ (success r = false ->
      lastSync r = None
      /\ exists e, error r = Some e
                   /\ In e (earlyErrors ++ pipelineErrors)%list).
Proof.
  intros H.
  destruct (syncToR2_outcome _ _ _ _ H)
    as [(Hs & Hl & (e & He & Hi) & _)|(dir & w3 & _ & _ & Hp)].
  - split; [congruence|]. intros _. split; [exact Hl|].
    exists e. split; [exact He|]. apply in_or_app. auto.
  - destruct (pipelineStage_outcome _ _ _ _ Hp)
      as [_ [(Hs & He & Hd & Hl)|(Hs & Hl & (e & He & Hi) & _)]].
    + split; [auto|congruence].
    + split; [congruence|]. intros _. split; [exact Hl|].
      exists e. split; [exact He|]. apply in_or_app. auto.
Qed.

Lemma syncToR2_fulfilled env w : exists r w', sync env w = (Ok r, w').
Proof.
  rewrite syncToR2_unfold.
  destruct (credentialsMissing env); [eauto|].
  destruct (call_mountR2Storage sandbox env w) as [[|] w1]; [|eauto].
  unfold settle, bind.
  destruct (configStage_completes sandbox JSON_stringify w1)
    as [(dir & w2 & ->)|(r & w2 & ->)]; [|eauto].
  destruct (rsyncCheckStage_completes sandbox JSON_stringify w2)
    as [(w3 & ->)|(r & w3 & ->)]; [|eauto].
  destruct (pipelineStage_returns sandbox R2_MOUNT_PATH dir w3)
    as (r & w4 & ->).
  eauto.
Qed.

(** X13. Whatever happens, the processes an invocation starts run the four
    probes, the pipeline for one of the two config directories or the
    marker read, and nothing else. *)
Theorem syncToR2_starts_known_commands_only env w :
  StartsOnly (syncCommands R2_MOUNT_PATH) w (snd (sync env w)).
Proof.
  destruct (syncToR2_fulfilled env w) as (r & w' & H).
  rewrite H. simpl.
  destruct (syncToR2_outcome _ _ _ _ H)
    as [(_ & _ & _ & Ht)|(dir & w3 & Hd & Ht & Hp)].
  - eapply StartsOnly_weaken; [|exact Ht].
    unfold syncCommands. apply incl_appl, incl_refl.
  - destruct (pipelineStage_outcome _ _ _ _ Hp) as [Hq _].
    eapply StartsOnly_trans.
    + eapply StartsOnly_weaken; [|exact Ht].
      unfold syncCommands. apply incl_appl, incl_refl.
    + eapply StartsOnly_weaken; [|exact Hq].
      unfold syncCommands. apply incl_appr.
      intros x [<-|[<-|[]]]; [|apply in_cons, in_cons, in_eq].
      destruct Hd as [<-|[<-|[]]]; [apply in_eq|apply in_cons, in_eq].
Qed.

Lemma syncCmd_not_probe (configDir : string) :
  ~ In (syncCmd R2_MOUNT_PATH configDir) probeCommands.
Proof.
  unfold probeCommands, syncCmd.
  intros [H|[H|[H|[H|[]]]]]; discriminate H.
Qed.

(** X14. An invocation that fails with one of the eight early classifications
    has started probes only: the rsync pipeline was not started. *)
Theorem early_failure_starts_no_pipeline env w r w' (e : string) :
  sync env w = (Ok r, w') ->
  error r = Some e ->
  In e earlyErrors ->
  exists tr,
    calls w' = (calls w ++ tr)%list
    /\ incl (startedCommands tr) probeCommands
    /\ forall configDir : string,
         ~ In (syncCmd R2_MOUNT_PATH configDir) (startedCommands tr).
Proof.
  intros H He Hi.
  assert (Ht : StartsOnly probeCommands w w').
  { destruct (syncToR2_outcome _ _ _ _ H)
      as [(_ & _ & _ & Ht)|(dir & w3 & _ & _ & Hp)]; [exact Ht|].
    exfalso.
    destruct (pipelineStage_outcome _ _ _ _ Hp)
      as [_ [(_ & Hn & _)|(_ & _ & (e' & He' & Hi') & _)]].
    - congruence.
    - rewrite He in He'. injection He' as <-.
      unfold earlyErrors, pipelineErrors in *.
      repeat match goal with
             | K : In _ (_ :: _) |- _ => destruct K as [K|K]
             | K : In _ [] |- _ => destruct K
             end; subst; discriminate. }
  destruct Ht as (tr & E & I). exists tr. split; [exact E|].
  split; [exact I|]. intros dir Hin. apply I in Hin.
  exact (syncCmd_not_probe dir Hin).
Qed.

End Invocation.

(** ** Objects *)

Lemma get_assign_same (k v : string) (o : Obj) : get k (assign k v o) = Some v.
Proof.
  induction o as [|[k' v'] o IH]; simpl.
  - now rewrite String.eqb_refl.
  - destruct (String.eqb k' k) eqn:E; simpl.
    + now rewrite String.eqb_refl.
    + now rewrite E.
Qed.

Lemma get_assign_other (k k' v : string) (o : Obj) :
  String.eqb k' k = false -> get k (assign k' v o) = get k o.
Proof.
  intros N. induction o as [|[k2 v2] o IH]; simpl.
  - now rewrite N.
  - destruct (String.eqb k2 k') eqn:E; simpl.
    + apply String.eqb_eq in E. subst k2. now rewrite N.
    + now rewrite IH.
Qed.

Lemma keys_assign (k k' v : string) (o : Obj) :
  In k (keys (assign k' v o)) -> k = k' \/ In k (keys o).
Proof.
  induction o as [|[k2 v2] o IH]; simpl.
  - intros [<-|[]]. now left.
  - destruct (String.eqb k2 k') eqn:E; simpl.
    + apply String.eqb_eq in E. subst k2. tauto.
    + intros [<-|H]; [tauto|]. destruct (IH H); tauto.
Qed.

Lemma get_keys (k v : string) (o : Obj) : get k o = Some v -> In k (keys o).
Proof.
  induction o as [|[k' v'] o IH]; simpl; [discriminate|].
  destruct (String.eqb_spec k' k); [now left|]. intros H. right. auto.
Qed.

Lemma noEmptyValue_assign (k v : string) (o : Obj) :
  nonEmpty v = true -> noEmptyValue o -> noEmptyValue (assign k v o).
Proof.
  intros Hv. unfold noEmptyValue.
  induction o as [|[k' v'] o IH]; simpl; intros H.
  - repeat constructor. exact Hv.
  - inversion H as [|? ? Hh Ht]; subst.
    destruct (String.eqb k' k); constructor; auto.
Qed.

(** ** Slashes, case and white space *)

Lemma stripTrailingSlashes_decomposes (s : string) :
  exists n, s = stripTrailingSlashes s ++ replicate n "/".
Proof.
  induction s as [|c s [n IH]]; [now exists 0%nat|].
  simpl. destruct (stripTrailingSlashes s) as [|d t] eqn:E.
  - simpl in IH. destruct (Ascii.eqb_spec c "/"%char) as [->|N].
    + exists (S n). simpl. now rewrite <- IH.
    + exists n. simpl. now rewrite <- IH.
  - exists n. simpl. now rewrite IH at 1.
Qed.

Lemma stripTrailingSlashes_no_slash (s t : string) :
  stripTrailingSlashes s <> t ++ "/".
Proof.
  revert t; induction s as [|c s IH]; intros t; simpl.
  - destruct t; discriminate.
  - destruct (stripTrailingSlashes s) as [|d u] eqn:E.
    + destruct (Ascii.eqb_spec c "/"%char) as [->|N].
      * destruct t; discriminate.
      * destruct t as [|x [|y t]]; simpl; try discriminate.
        intros H. injection H as H. congruence.
    + destruct t as [|x t]; simpl; [discriminate|].
      intros H. injection H as _ H. exact (IH t H).
Qed.

Lemma stripTrailingSlashes_fixed (s : string) :
  (forall t, s <> t ++ "/") -> stripTrailingSlashes s = s.
Proof.
  induction s as [|c s IH]; intros H; [reflexivity|]. simpl.
  destruct s as [|d s].
  - simpl. destruct (Ascii.eqb_spec c "/"%char) as [->|N]; [|reflexivity].
    exfalso. exact (H EmptyString eq_refl).
  - rewrite IH.
    + reflexivity.
    + intros t E. apply (H (String c t)). simpl. now rewrite E.
Qed.

(** X15. The normalized URL is the URL without the slashes at its end: it ends
    with no slash, what was removed is slashes only, and normalizing again
    changes nothing. *)
Theorem stripTrailingSlashes_spec (s : string) :
  (exists n, s = stripTrailingSlashes s ++ replicate n "/")
  /\ (forall t, stripTrailingSlashes s <> t ++ "/")
  /\ stripTrailingSlashes (stripTrailingSlashes s) = stripTrailingSlashes s.
Proof.
  split; [apply stripTrailingSlashes_decomposes|].
  split; [apply stripTrailingSlashes_no_slash|].
  apply stripTrailingSlashes_fixed, stripTrailingSlashes_no_slash.
Qed.

Lemma isWhiteSpace_toLowerChar (c : ascii) :
  isWhiteSpace (toLowerChar c) = isWhiteSpace c.
Proof. destruct c as [[] [] [] [] [] [] [] []]; reflexivity. Qed.

Lemma toLowerCase_trimStart (s : string) :
  toLowerCase (trimStart s) = trimStart (toLowerCase s).
Proof.
  induction s as [|c s IH]; [reflexivity|].
  cbn [trimStart toLowerCase]. rewrite isWhiteSpace_toLowerChar.
  destruct (isWhiteSpace c); [exact IH|reflexivity].
Qed.

Lemma toLowerCase_trimEnd (s : string) :
  toLowerCase (trimEnd s) = trimEnd (toLowerCase s).
Proof.
  induction s as [|c s IH]; [reflexivity|].
  cbn [trimEnd toLowerCase]. rewrite <- IH, isWhiteSpace_toLowerChar.
  destruct (trimEnd s); [destruct (isWhiteSpace c)|]; reflexivity.
Qed.

Lemma toLowerCase_trim (s : string) :
  toLowerCase (trim s) = trim (toLowerCase s).
Proof.
  unfold trim. now rewrite toLowerCase_trimEnd, toLowerCase_trimStart.
Qed.

Lemma toLowerCase_empty (s : string) :
  toLowerCase s = EmptyString -> s = EmptyString.
Proof. destruct s; [reflexivity|discriminate]. Qed.

Lemma trimStart_append (ws s : string) :
  allWhiteSpace ws = true -> trimStart (ws ++ s) = trimStart s.
Proof.
  unfold allWhiteSpace. induction ws as [|c ws IH]; [reflexivity|].
  simpl. destruct (isWhiteSpace c); [exact IH|discriminate].
Qed.

Lemma trimEnd_append (s ws : string) :
  allWhiteSpace ws = true -> trimEnd (s ++ ws) = trimEnd s.
Proof.
  intros H.
  assert (E : trimEnd ws = EmptyString).
  { revert H. unfold allWhiteSpace. induction ws as [|c ws IH]; [reflexivity|].
    simpl. destruct (isWhiteSpace c); [|discriminate].
    intros H. now rewrite (IH H). }
  induction s as [|c s IH]; simpl; [exact E|now rewrite IH].
Qed.

Lemma trimStart_idempotent (s : string) : trimStart (trimStart s) = trimStart s.
Proof.
  induction s as [|c s IH]; [reflexivity|]. simpl.
  destruct (isWhiteSpace c) eqn:E; [exact IH|]. simpl. now rewrite E.
Qed.

(** ** env-validation.ts *)

(** X16. The flag is read without regard to case or to white space around it:
    two values with the same lower-case form are the same flag, white
    space before and after a value does not change it, and an undefined or
    empty value is not a flag. *)
Theorem isTruthyFlag_ignores_case_and_space :
  (forall a b : string,
      toLowerCase a = toLowerCase b ->
      isTruthyFlag (Some a) = isTruthyFlag (Some b))
  /\ (forall before s after : string,
        allWhiteSpace before = true -> allWhiteSpace after = true ->
        isTruthyFlag (Some (before ++ s ++ after)) = isTruthyFlag (Some s))
  /\ isTruthyFlag None = false
  /\ isTruthyFlag (Some EmptyString) = false.
Proof.
  assert (Flag : forall s,
             isTruthyFlag (Some s)
             = let n := toLowerCase (trim s) in
               String.eqb n "1" || String.eqb n "true").
  { intros [|c s]; reflexivity. }
  split; [|split; [|split; reflexivity]].
  - intros a b E. rewrite !Flag. cbv zeta.
    now rewrite !toLowerCase_trim, E.
  - intros before s after Hb Ha. rewrite !Flag. cbv zeta. unfold trim.
    rewrite (trimStart_append before) by exact Hb.
    destruct (trimStart s) as [|c t] eqn:E.
    + assert (Es : s = EmptyString \/ allWhiteSpace s = true).
      { right. unfold allWhiteSpace. now rewrite E. }
      assert (Et : trimStart (s ++ after) = EmptyString).
      { destruct Es as [->|Es].
        - simpl. unfold allWhiteSpace in Ha.
          destruct (trimStart after); [reflexivity|discriminate].
        - rewrite (trimStart_append s after Es).
          unfold allWhiteSpace in Ha.
          destruct (trimStart after); [reflexivity|discriminate]. }
      now rewrite Et.
    + assert (Et : trimStart (s ++ after) = String c t ++ after).
      { clear Ha. revert E. induction s as [|d s IH]; [discriminate|].
        simpl. destruct (isWhiteSpace d) eqn:W.
        - exact IH.
        - intros H. injection H as <- <-. reflexivity. }
      rewrite Et. now rewrite (trimEnd_append (String c t) after Ha).
Qed.

(** X17. Each of the four messages is reported exactly when its requirement is
    not met, nothing else is reported, nothing is reported twice, and the
    list is empty exactly when every requirement is met; in dev or E2E test
    mode the two Cloudflare Access variables are not required. *)
Theorem validateRequiredEnv_reports_exactly (env : Obj) :
  (forall m,
      In m (validateRequiredEnv env) <->
      (m = MISSING_GATEWAY_TOKEN /\ truthy (gatewayTokenOf env) = false)
      \/ (m = "CF_ACCESS_TEAM_DOMAIN" /\ isTestModeOf env = false
          /\ truthy (get "CF_ACCESS_TEAM_DOMAIN" env) = false)
      \/ (m = "CF_ACCESS_AUD" /\ isTestModeOf env = false
          /\ truthy (get "CF_ACCESS_AUD" env) = false)
      \/ (m = MISSING_PROVIDER /\ hasProviderOf env = false))
  /\ (validateRequiredEnv env = [] <->
      truthy (gatewayTokenOf env) = true
      /\ (isTestModeOf env = true
          \/ (truthy (get "CF_ACCESS_TEAM_DOMAIN" env) = true
              /\ truthy (get "CF_ACCESS_AUD" env) = true))
      /\ hasProviderOf env = true)
  /\ NoDup (validateRequiredEnv env).
Proof.
  unfold validateRequiredEnv, pushIf.
  destruct (truthy (gatewayTokenOf env)), (isTestModeOf env),
    (truthy (get "CF_ACCESS_TEAM_DOMAIN" env)),
    (truthy (get "CF_ACCESS_AUD" env)), (hasProviderOf env);
    cbn [negb app];
    (split; [|split]);
    try (intros m; split;
         [ intros H;
           repeat (destruct H as [<-|H]; [tauto|]); destruct H
         | intros [[-> H]|[[-> [H1 H2]]|[[-> [H1 H2]]|[-> H]]]];
           try discriminate;
           first [apply in_eq | apply in_cons, in_eq
                 | apply in_cons, in_cons, in_eq
                 | apply in_cons, in_cons, in_cons, in_eq] ]);
    try (split; [intros H; try discriminate H; tauto
                |intros (H1 & H2 & H3); try discriminate;
                 try (destruct H2 as [H2|[H2 H2']]; discriminate);
                 reflexivity]);
    repeat (constructor;
            [intros H; repeat (destruct H as [H|H]; [discriminate H|]);
             destruct H|]);
    constructor.
Qed.

(** ** gateway/env.ts *)

Lemma get_copyAs_same (env : Obj) (src k : string) (o : Obj) :
  get k (copyAs env src k o)
  = if truthy (get src env) then get src env else get k o.
Proof.
  unfold copyAs. destruct (get src env) as [[|c v]|]; simpl; try reflexivity.
  apply get_assign_same.
Qed.

Lemma get_copyAs_other (env : Obj) (src dst k : string) (o : Obj) :
  String.eqb dst k = false -> get k (copyAs env src dst o) = get k o.
Proof.
  intros N. unfold copyAs. destruct (get src env) as [[|c v]|]; simpl;
    try reflexivity.
  now apply get_assign_other.
Qed.

Lemma get_aliases_other (env : Obj) (k : string) (o : Obj) :
  String.eqb "OPENCLAW_GATEWAY_TOKEN" k = false ->
  String.eqb "CLAWDBOT_GATEWAY_TOKEN" k = false ->
  get k (gatewayTokenAliases env o) = get k o.
Proof.
  intros N1 N2. unfold gatewayTokenAliases.
  destruct (gatewayTokenOf env) as [[|c v]|]; simpl; try reflexivity.
  now rewrite !get_assign_other.
Qed.

Lemma get_legacyGateway_other (env : Obj) (k : string) (o : Obj) :
  existsb (fun g => String.eqb g k) gatewayKeys = false ->
  get k (legacyGateway env o) = get k o.
Proof.
  intros N. cbn [existsb gatewayKeys] in N.
  repeat (apply orb_false_elim in N as [? N]).
  unfold legacyGateway.
  destruct (get "AI_GATEWAY_API_KEY" env) as [apiKey|];
    [destruct (get "AI_GATEWAY_BASE_URL" env) as [baseUrl|]|];
    try (now apply get_copyAs_other).
  destruct (nonEmpty apiKey && nonEmpty baseUrl);
    [|now apply get_copyAs_other].
  cbv zeta.
  destruct (endsWith _ _); [destruct (truthy _)|];
    now rewrite !get_assign_other.
Qed.

Ltac get_step :=
  first
    [ rewrite get_assign_same
    | rewrite get_assign_other by reflexivity
    | rewrite get_copyAs_same
    | rewrite get_copyAs_other by reflexivity
    | rewrite get_aliases_other by reflexivity
    | rewrite get_legacyGateway_other by reflexivity ].

Ltac get_through := unfold buildEnvVars; repeat get_step.

Lemma keys_copyAs (env : Obj) (src dst k : string) (o : Obj) :
  In k (keys (copyAs env src dst o)) -> k = dst \/ In k (keys o).
Proof.
  unfold copyAs. destruct (get src env) as [[|c v]|]; auto.
  apply keys_assign.
Qed.

Lemma keys_aliases (env : Obj) (k : string) (o : Obj) :
  In k (keys (gatewayTokenAliases env o)) ->
  k = "OPENCLAW_GATEWAY_TOKEN" \/ k = "CLAWDBOT_GATEWAY_TOKEN"
  \/ In k (keys o).
Proof.
  unfold gatewayTokenAliases.
  destruct (gatewayTokenOf env) as [[|c v]|]; auto.
  intros H. apply keys_assign in H as [H|H]; [auto|].
  apply keys_assign in H as [H|H]; auto.
Qed.

Lemma keys_legacyGateway (env : Obj) (k : string) (o : Obj) :
  In k (keys (legacyGateway env o)) -> In k gatewayKeys \/ In k (keys o).
Proof.
  assert (C : In k (keys (copyAs env "ANTHROPIC_BASE_URL"
                             "ANTHROPIC_BASE_URL" o)) ->
              In k gatewayKeys \/ In k (keys o)).
  { intros H. apply keys_copyAs in H as [->|H]; [left|now right].
    do 4 apply in_cons. apply in_eq. }
  unfold legacyGateway.
  destruct (get "AI_GATEWAY_API_KEY" env) as [apiKey|];
    [destruct (get "AI_GATEWAY_BASE_URL" env) as [baseUrl|]|];
    try exact C.
  destruct (nonEmpty apiKey && nonEmpty baseUrl); [|exact C].
  cbv zeta.
  destruct (endsWith _ _); [destruct (truthy _)|]; intros H;
    repeat (apply keys_assign in H as [->|H];
            [left; unfold gatewayKeys;
             first [apply in_eq | apply in_cons, in_eq
                   | apply in_cons, in_cons, in_eq
                   | apply in_cons, in_cons, in_cons, in_eq
                   | do 4 apply in_cons; apply in_eq
                   | do 5 apply in_cons; apply in_eq]|]);
    now right.
Qed.

Ltac in_list := repeat first [apply in_eq | apply in_cons].

Lemma buildEnvVars_keys (env : Obj) (k : string) :
  In k (keys (buildEnvVars env)) -> In k containerKeys.
Proof.
  intros H. unfold buildEnvVars in H.
  repeat match type of H with
         | In _ (keys (copyAs _ _ _ _)) =>
             apply keys_copyAs in H as [->|H]; [unfold containerKeys; in_list|]
         | In _ (keys (gatewayTokenAliases _ _)) =>
             apply keys_aliases in H as [->|[->|H]];
             [unfold containerKeys; in_list
             |unfold containerKeys; in_list|]
         | In _ (keys (legacyGateway _ _)) =>
             apply keys_legacyGateway in H as [H|H];
             [unfold gatewayKeys in H;
              repeat (destruct H as [<-|H];
                      [unfold containerKeys; in_list|]);
              destruct H|]
         end.
  destruct H.
Qed.

Lemma not_container_key (env : Obj) (k : string) :
  existsb (String.eqb k) containerKeys = false ->
  get k (buildEnvVars env) = None.
Proof.
  intros N. destruct (get k (buildEnvVars env)) as [v|] eqn:E; [|reflexivity].
  apply get_keys, buildEnvVars_keys in E.
  assert (T : existsb (String.eqb k) containerKeys = true).
  { apply existsb_exists. exists k. split; [exact E|apply String.eqb_refl]. }
  congruence.
Qed.

(** X18. The container gets no variable but the twenty-four names
    [buildEnvVars] writes: whatever the worker's environment holds, the R2
    credentials, the Cloudflare Access settings, the legacy
    [MOLTBOT_GATEWAY_TOKEN] and the mode switches are not passed on. *)
Theorem buildEnvVars_passes_known_names_only (env : Obj) :
  (forall k v, get k (buildEnvVars env) = Some v -> In k containerKeys)
  /\ Forall (fun k => get k (buildEnvVars env) = None)
       [ "R2_ACCESS_KEY_ID"; "R2_SECRET_ACCESS_KEY"; "R2_BUCKET_NAME";
         "CF_ACCESS_TEAM_DOMAIN"; "CF_ACCESS_AUD"; "MOLTBOT_GATEWAY_TOKEN";
         "DEV_MODE"; "E2E_TEST_MODE"; "DEBUG_ROUTES"; "SANDBOX_SLEEP_AFTER" ].
Proof.
  split.
  - intros k v H. eapply buildEnvVars_keys, get_keys. exact H.
  - repeat (constructor; [apply not_container_key; reflexivity|]).
    constructor.
Qed.

Lemma buildEnvVars_tokens (env : Obj) :
  get "OPENCLAW_GATEWAY_TOKEN" (buildEnvVars env)
  = (if truthy (gatewayTokenOf env) then gatewayTokenOf env else None)
  /\ get "CLAWDBOT_GATEWAY_TOKEN" (buildEnvVars env)
     = (if truthy (gatewayTokenOf env) then gatewayTokenOf env else None).
Proof.
  assert (A : forall o,
             get "OPENCLAW_GATEWAY_TOKEN" o = None ->
             get "CLAWDBOT_GATEWAY_TOKEN" o = None ->
             get "OPENCLAW_GATEWAY_TOKEN" (gatewayTokenAliases env o)
             = (if truthy (gatewayTokenOf env) then gatewayTokenOf env
                else None)
             /\ get "CLAWDBOT_GATEWAY_TOKEN" (gatewayTokenAliases env o)
                = (if truthy (gatewayTokenOf env) then gatewayTokenOf env
                   else None)).
  { intros o H1 H2. unfold gatewayTokenAliases.
    destruct (gatewayTokenOf env) as [[|c v]|]; simpl; auto.
    rewrite get_assign_same.
    rewrite get_assign_other by reflexivity.
    now rewrite get_assign_same. }
  unfold buildEnvVars.
  repeat rewrite (get_copyAs_other env _ _ "OPENCLAW_GATEWAY_TOKEN")
    by reflexivity.
  repeat rewrite (get_copyAs_other env _ _ "CLAWDBOT_GATEWAY_TOKEN")
    by reflexivity.
  match goal with
  | |- context [gatewayTokenAliases env ?o] =>
      apply (A o); repeat get_step; reflexivity
  end.
Qed.

(** X19. The two token names given to the container always hold the same value:
    the first defined of [OPENCLAW_GATEWAY_TOKEN], [MOLTBOT_GATEWAY_TOKEN]
    and [CLAWDBOT_GATEWAY_TOKEN] when it is not empty, and nothing
    otherwise. *)
Theorem buildEnvVars_token_aliases_agree (env : Obj) :
  get "OPENCLAW_GATEWAY_TOKEN" (buildEnvVars env)
  = get "CLAWDBOT_GATEWAY_TOKEN" (buildEnvVars env)
  /\ get "OPENCLAW_GATEWAY_TOKEN" (buildEnvVars env)
     = if truthy (gatewayTokenOf env) then gatewayTokenOf env else None.
Proof.
  destruct (buildEnvVars_tokens env) as [A1 A2].
  rewrite A1, A2. auto.
Qed.

(** X20. The provider identifiers, the Codex flag, the channel tokens and
    policies and the tool settings reach the container under their own
    name exactly when they are set and not empty, whatever the other
    variables hold; [DEV_MODE] reaches it as [OPENCLAW_DEV_MODE]. *)
Theorem buildEnvVars_passes_through (env : Obj) :
  (forall k, In k passThroughKeys ->
             get k (buildEnvVars env)
             = if truthy (get k env) then get k env else None)
  /\ get "OPENCLAW_DEV_MODE" (buildEnvVars env)
     = if truthy (get "DEV_MODE" env) then get "DEV_MODE" env else None.
Proof.
  split.
  - intros k H. unfold passThroughKeys, channelAndToolKeys in H.
    cbn [app] in H.
    repeat (destruct H as [<-|H]; [get_through; reflexivity|]).
    destruct H.
  - get_through. reflexivity.
Qed.

Lemma buildEnvVars_legacy_gateway_first (env : Obj) (apiKey baseUrl : string) :
  get "AI_GATEWAY_API_KEY" env = Some apiKey ->
  get "AI_GATEWAY_BASE_URL" env = Some baseUrl ->
  nonEmpty apiKey = true ->
  nonEmpty baseUrl = true ->
  get "AI_GATEWAY_BASE_URL" (buildEnvVars env)
  = Some (stripTrailingSlashes baseUrl).
Proof.
  intros Hk Hu Nk Nu. unfold buildEnvVars. repeat get_step.
  unfold legacyGateway. rewrite Hk, Hu, Nk, Nu. cbn [andb]. cbv zeta.
  destruct (endsWith _ "/openai");
    [destruct (truthy (get "OPENAI_API_KEY" env))|];
    repeat get_step; reflexivity.
Qed.

(** X21. With a legacy AI Gateway key and base URL that are not empty, the
    container gets the base URL without its trailing slashes.  Unless that
    URL ends with [/openai] it is also the Anthropic base URL and the
    gateway key replaces [ANTHROPIC_API_KEY]; when it ends with [/openai]
    it is the OpenAI base URL, a direct [OPENAI_API_KEY] is kept and the
    gateway key is passed beside it, and without a direct key the gateway
    key becomes the OpenAI key.  In both cases [ANTHROPIC_BASE_URL] of the
    worker is not read. *)
Theorem buildEnvVars_legacy_gateway (env : Obj) (apiKey baseUrl : string) :
  get "AI_GATEWAY_API_KEY" env = Some apiKey ->
  get "AI_GATEWAY_BASE_URL" env = Some baseUrl ->
  nonEmpty apiKey = true ->
  nonEmpty baseUrl = true ->
  let url := stripTrailingSlashes baseUrl in
  let out := buildEnvVars env in
  get "AI_GATEWAY_BASE_URL" out = Some url
  /\ (endsWith url "/openai" = false ->
      get "ANTHROPIC_BASE_URL" out = Some url
      /\ get "ANTHROPIC_API_KEY" out = Some apiKey
      /\ get "AI_GATEWAY_API_KEY" out = None
      /\ get "OPENAI_BASE_URL" out = None
      /\ get "OPENAI_API_KEY" out
         = if truthy (get "OPENAI_API_KEY" env)
           then get "OPENAI_API_KEY" env else None)
  /\ (endsWith url "/openai" = true ->
      get "OPENAI_BASE_URL" out = Some url
      /\ get "OPENAI_API_KEY" out
         = (if truthy (get "OPENAI_API_KEY" env)
            then get "OPENAI_API_KEY" env else Some apiKey)
      /\ get "AI_GATEWAY_API_KEY" out
         = (if truthy (get "OPENAI_API_KEY" env) then Some apiKey else None)
      /\ get "ANTHROPIC_BASE_URL" out = None
      /\ get "ANTHROPIC_API_KEY" out
         = if truthy (get "ANTHROPIC_API_KEY" env)
           then get "ANTHROPIC_API_KEY" env else None).
Proof.
  intros Hk Hu Nk Nu url out. subst out.
  assert (L : forall o,
             legacyGateway env o =
             let o := assign "AI_GATEWAY_BASE_URL" url o in
             if endsWith url "/openai" then
               let o :=
                 if truthy (get "OPENAI_API_KEY" env) then
                   assign "AI_GATEWAY_API_KEY" apiKey
                     (assign "OPENAI_API_KEY"
                        (orElse (get "OPENAI_API_KEY" env) EmptyString) o)
                 else assign "OPENAI_API_KEY" apiKey o in
               assign "OPENAI_BASE_URL" url o
             else
               assign "ANTHROPIC_API_KEY" apiKey
                 (assign "ANTHROPIC_BASE_URL" url o)).
  { intros o. unfold legacyGateway. now rewrite Hk, Hu, Nk, Nu. }
  assert (T : forall v, truthy v = true -> Some (orElse v EmptyString) = v).
  { intros [v|]; [reflexivity|discriminate]. }
  unfold buildEnvVars.
  split; [|split].
  - repeat get_step. rewrite L. cbv zeta.
    destruct (endsWith url "/openai");
      [destruct (truthy (get "OPENAI_API_KEY" env))|];
      repeat get_step; reflexivity.
  - intros E. repeat split; repeat get_step; rewrite L; cbv zeta; rewrite E;
      repeat get_step; try reflexivity.
  - intros E. repeat split; repeat get_step; rewrite L; cbv zeta; rewrite E;
      destruct (truthy (get "OPENAI_API_KEY" env)) eqn:D;
      repeat get_step; rewrite ?D; auto.
Qed.

(** X22. Without both a gateway key and a gateway base URL that are not empty,
    the container gets no [AI_GATEWAY_*] variable and no [OPENAI_BASE_URL],
    and [ANTHROPIC_BASE_URL], [ANTHROPIC_API_KEY] and [OPENAI_API_KEY] are
    those of the worker when they are not empty. *)
Theorem buildEnvVars_without_legacy_gateway (env : Obj) :
  truthy (get "AI_GATEWAY_API_KEY" env)
  && truthy (get "AI_GATEWAY_BASE_URL" env) = false ->
  let out := buildEnvVars env in
  get "AI_GATEWAY_BASE_URL" out = None
  /\ get "AI_GATEWAY_API_KEY" out = None
  /\ get "OPENAI_BASE_URL" out = None
  /\ Forall (fun k => get k out
                      = if truthy (get k env) then get k env else None)
       [ "ANTHROPIC_BASE_URL"; "ANTHROPIC_API_KEY"; "OPENAI_API_KEY" ].
Proof.
  intros H out. subst out.
  assert (L : forall o,
             legacyGateway env o
             = copyAs env "ANTHROPIC_BASE_URL" "ANTHROPIC_BASE_URL" o).
  { intros o. unfold legacyGateway.
    destruct (get "AI_GATEWAY_API_KEY" env) as [apiKey|]; [|reflexivity].
    destruct (get "AI_GATEWAY_BASE_URL" env) as [baseUrl|]; [|reflexivity].
    simpl in H. now rewrite H. }
  unfold buildEnvVars.
  repeat split; repeat get_step; rewrite ?L; repeat get_step;
    try reflexivity.
  repeat (constructor; [repeat get_step; rewrite ?L; repeat get_step;
                        reflexivity|]).
  constructor.
Qed.

Lemma noEmptyValue_copyAs (env : Obj) (src dst : string) (o : Obj) :
  noEmptyValue o -> noEmptyValue (copyAs env src dst o).
Proof.
  intros H. unfold copyAs.
  destruct (get src env) as [v|]; [|exact H].
  destruct (nonEmpty v) eqn:E; [|exact H].
  now apply noEmptyValue_assign.
Qed.

Lemma noEmptyValue_aliases (env : Obj) (o : Obj) :
  noEmptyValue o -> noEmptyValue (gatewayTokenAliases env o).
Proof.
  intros H. unfold gatewayTokenAliases.
  destruct (gatewayTokenOf env) as [v|]; [|exact H].
  destruct (nonEmpty v) eqn:E; [|exact H].
  now repeat apply noEmptyValue_assign.
Qed.

Lemma noEmptyValue_legacyGateway (env : Obj) (o : Obj) :
  (forall baseUrl,
      get "AI_GATEWAY_BASE_URL" env = Some baseUrl ->
      nonEmpty baseUrl = true ->
      nonEmpty (stripTrailingSlashes baseUrl) = true) ->
  noEmptyValue o -> noEmptyValue (legacyGateway env o).
Proof.
  intros R H. unfold legacyGateway.
  destruct (get "AI_GATEWAY_API_KEY" env) as [apiKey|];
    [|now apply noEmptyValue_copyAs].
  destruct (get "AI_GATEWAY_BASE_URL" env) as [baseUrl|];
    [|now apply noEmptyValue_copyAs].
  destruct (nonEmpty apiKey) eqn:Ek; [|now apply noEmptyValue_copyAs].
  destruct (nonEmpty baseUrl) eqn:Eu; [|now apply noEmptyValue_copyAs].
  specialize (R baseUrl eq_refl Eu). cbn [andb]. cbv zeta.
  destruct (endsWith _ _).
  - destruct (get "OPENAI_API_KEY" env) as [[|c v]|]; cbn [truthy nonEmpty];
      repeat apply noEmptyValue_assign; auto.
  - repeat apply noEmptyValue_assign; auto.
Qed.

Lemma stripTrailingSlashes_slashes (n : nat) :
  stripTrailingSlashes (replicate n "/") = EmptyString.
Proof.
  induction n as [|n IH]; [reflexivity|].
  cbn [replicate stripTrailingSlashes]. now rewrite IH.
Qed.

(** X23. No variable given to the container is empty, provided the gateway base
    URL is not made of slashes only.  With a gateway key and a base URL made
    of slashes only the container gets an empty [AI_GATEWAY_BASE_URL]. *)
Theorem buildEnvVars_values_not_empty (env : Obj) :
  ((forall baseUrl,
       get "AI_GATEWAY_BASE_URL" env = Some baseUrl ->
       nonEmpty baseUrl = true ->
       nonEmpty (stripTrailingSlashes baseUrl) = true) ->
   forall k v, get k (buildEnvVars env) = Some v -> v <> EmptyString)
  /\ (forall (apiKey : string) (n : nat),
        get "AI_GATEWAY_API_KEY" env = Some apiKey ->
        nonEmpty apiKey = true ->
        get "AI_GATEWAY_BASE_URL" env = Some (replicate (S n) "/") ->
        get "AI_GATEWAY_BASE_URL" (buildEnvVars env) = Some EmptyString).
Proof.
  split.
  - intros R.
    assert (N : noEmptyValue (buildEnvVars env)).
    { unfold buildEnvVars. cbv zeta.
      repeat first [ apply noEmptyValue_copyAs
                   | apply noEmptyValue_aliases
                   | apply noEmptyValue_legacyGateway; [exact R|] ].
      constructor. }
    intros k v. unfold noEmptyValue in N.
    induction (buildEnvVars env) as [|[k' v'] o IH]; simpl; [discriminate|].
    inversion N as [|? ? Hh Ht]; subst.
    destruct (String.eqb k' k).
    + intros E. injection E as <-. simpl in Hh. now apply nonEmpty_iff.
    + now apply IH.
  - intros apiKey n Hk Nk Hu.
    rewrite (buildEnvVars_legacy_gateway_first env apiKey
               (replicate (S n) "/") Hk Hu Nk eq_refl).
    now rewrite stripTrailingSlashes_slashes.
Qed.

(** ** Validation and the container environment together *)

Lemma In_pushIf (c : bool) (m x : string) (l : list string) :
  In m l -> In m (pushIf c x l).
Proof.
  unfold pushIf. destruct c; [|auto]. intros H. apply in_or_app. auto.
Qed.

(** X24. An [OPENCLAW_GATEWAY_TOKEN] that is set but empty hides the legacy
    tokens: whatever [MOLTBOT_GATEWAY_TOKEN] and [CLAWDBOT_GATEWAY_TOKEN]
    hold, the token is reported missing and the container gets none. *)
Theorem empty_preferred_token_hides_legacy (env : Obj) :
  get "OPENCLAW_GATEWAY_TOKEN" env = Some EmptyString ->
  In MISSING_GATEWAY_TOKEN (validateRequiredEnv env)
  /\ get "OPENCLAW_GATEWAY_TOKEN" (buildEnvVars env) = None
  /\ get "CLAWDBOT_GATEWAY_TOKEN" (buildEnvVars env) = None.
Proof.
  intros H.
  assert (G : gatewayTokenOf env = Some EmptyString).
  { unfold gatewayTokenOf. now rewrite H. }
  split.
  - unfold validateRequiredEnv. rewrite G. cbn [truthy nonEmpty negb].
    assert (B : In MISSING_GATEWAY_TOKEN
                  (pushIf true MISSING_GATEWAY_TOKEN [])) by apply in_eq.
    apply In_pushIf.
    destruct (negb (isTestModeOf env)); [do 2 apply In_pushIf|]; exact B.
  - destruct (buildEnvVars_tokens env) as [A1 A2].
    now rewrite A1, A2, G.
Qed.

Lemma validateRequiredEnv_nil (env : Obj) :
  validateRequiredEnv env = [] ->
  truthy (gatewayTokenOf env) = true /\ hasProviderOf env = true.
Proof.
  unfold validateRequiredEnv, pushIf.
  destruct (truthy (gatewayTokenOf env)), (isTestModeOf env),
    (truthy (get "CF_ACCESS_TEAM_DOMAIN" env)),
    (truthy (get "CF_ACCESS_AUD" env)), (hasProviderOf env);
    cbn [negb app]; intros H; try discriminate H; auto.
Qed.

Lemma buildEnvVars_direct_keys (env : Obj) (k : string) :
  k = "ANTHROPIC_API_KEY" \/ k = "OPENAI_API_KEY" ->
  truthy (get k env) = true -> get k (buildEnvVars env) <> None.
Proof.
  intros Hk T.
  unfold buildEnvVars.
  destruct Hk as [-> | ->]; repeat get_step;
    unfold legacyGateway;
    destruct (get "AI_GATEWAY_API_KEY" env) as [apiKey|];
    try destruct (get "AI_GATEWAY_BASE_URL" env) as [baseUrl|];
    try destruct (nonEmpty apiKey && nonEmpty baseUrl);
    cbv zeta;
    try destruct (endsWith _ "/openai");
    try (destruct (truthy (get "OPENAI_API_KEY" env)) eqn:D);
    repeat get_step; rewrite ?T, ?D;
    try discriminate;
    destruct (get _ env); try discriminate; simpl in *; congruence.
Qed.

(** X25. An environment that passes the validation gives the container a
    gateway token that is not empty, under both of its names, and at least
    one provider setting. *)
Theorem validated_env_reaches_container (env : Obj) :
  validateRequiredEnv env = [] ->
  (exists token,
      nonEmpty token = true
      /\ get "OPENCLAW_GATEWAY_TOKEN" (buildEnvVars env) = Some token
      /\ get "CLAWDBOT_GATEWAY_TOKEN" (buildEnvVars env) = Some token)
  /\ exists k,
       In k [ "CLOUDFLARE_AI_GATEWAY_API_KEY"; "AI_GATEWAY_BASE_URL";
              "ANTHROPIC_API_KEY"; "OPENAI_API_KEY"; "OPENAI_CODEX_OAUTH" ]
       /\ get k (buildEnvVars env) <> None.
Proof.
  intros V. destruct (validateRequiredEnv_nil env V) as [T P]. split.
  - destruct (buildEnvVars_tokens env) as [A1 A2]. rewrite T in A1, A2.
    destruct (gatewayTokenOf env) as [token|]; [|discriminate].
    exists token. auto.
  - unfold hasProviderOf in P. cbv zeta in P.
    repeat (apply orb_prop in P as [P|P]).
    + exists "CLOUDFLARE_AI_GATEWAY_API_KEY". split; [apply in_eq|].
      apply andb_prop in P as [P _]. apply andb_prop in P as [P _].
      unfold buildEnvVars. repeat get_step. rewrite P.
      destruct (get _ env); [discriminate|discriminate P].
    + exists "AI_GATEWAY_BASE_URL". split; [apply in_cons, in_eq|].
      apply andb_prop in P as [Pk Pu].
      destruct (get "AI_GATEWAY_API_KEY" env) as [apiKey|] eqn:Ek;
        [|discriminate].
      destruct (get "AI_GATEWAY_BASE_URL" env) as [baseUrl|] eqn:Eu;
        [|discriminate].
      rewrite (buildEnvVars_legacy_gateway_first env apiKey baseUrl Ek Eu Pk Pu).
      discriminate.
    + exists "ANTHROPIC_API_KEY". split; [do 2 apply in_cons; apply in_eq|].
      apply buildEnvVars_direct_keys; auto.
    + exists "OPENAI_API_KEY". split; [do 3 apply in_cons; apply in_eq|].
      apply buildEnvVars_direct_keys; auto.
    + exists "OPENAI_CODEX_OAUTH". split; [do 4 apply in_cons; apply in_eq|].
      assert (Tc : truthy (get "OPENAI_CODEX_OAUTH" env) = true).
      { unfold isTruthyFlag in P.
        destruct (truthy (get "OPENAI_CODEX_OAUTH" env));
          [reflexivity|discriminate]. }
      unfold buildEnvVars. repeat get_step. rewrite Tc.
      destruct (get _ env); [discriminate|discriminate Tc].
Qed.

(** ** scripts/patch-browser-profile.cjs *)

Lemma allChars_append (p : ascii -> bool) (a b : string) :
  allChars p (a ++ b) = allChars p a && allChars p b.
Proof.
  induction a as [|c a IH]; simpl; [reflexivity|].
  now rewrite IH, andb_assoc.
Qed.

Lemma allChars_split (p : ascii -> bool) (s pre post : string) (c : ascii) :
  allChars p s = true -> s = pre ++ String c post -> p c = true.
Proof.
  intros H ->. rewrite allChars_append in H.
  apply andb_prop in H as [_ H]. simpl in H.
  now apply andb_prop in H as [H _].
Qed.

Lemma encodeUnit_safe (c : ascii) :
  allChars isQuerySafe (encodeUnit c) = true.
Proof. destruct c as [[] [] [] [] [] [] [] []]; reflexivity. Qed.

Lemma encodeUnit_length (c : ascii) :
  (1 <= String.length (encodeUnit c) <= 6)%nat.
Proof. destruct c as [[] [] [] [] [] [] [] []]; simpl; lia. Qed.

Lemma encodeURIComponent_query_safe_all (s : string) :
  allChars isQuerySafe (encodeURIComponent s) = true.
Proof.
  induction s as [|c s IH]; [reflexivity|].
  simpl. now rewrite allChars_append, encodeUnit_safe, IH.
Qed.

(** The encoded component is made of unreserved characters and percent
    signs only, so none of [& = ? # / +] nor a space can come out of a
    secret; a component made of unreserved characters is left as it is; and
    the encoding is at most six times as long as the component. *)
Theorem encodeURIComponent_query_safe (s : string) :
  allChars isQuerySafe (encodeURIComponent s) = true
  /\ (forall pre c post,
         encodeURIComponent s = pre ++ String c post ->
         ~ In c [ "&"; "="; "?"; "#"; "/"; "+"; " " ]%char)
  /\ (allChars isUnreserved s = true -> encodeURIComponent s = s)
  /\ (String.length s <= String.length (encodeURIComponent s)
      <= 6 * String.length s)%nat.
Proof.
  pose proof (encodeURIComponent_query_safe_all s) as S.
  split; [exact S|]. split; [|split].
  - intros pre c post E Hin.
    pose proof (allChars_split _ _ _ _ _ S E) as Hc.
    simpl in Hin.
    repeat (destruct Hin as [<-|Hin]; [discriminate Hc|]).
    destruct Hin.
  - clear S. induction s as [|c s IH]; [reflexivity|].
    simpl. intros H. apply andb_prop in H as [Hc Hs].
    unfold encodeUnit. rewrite Hc. simpl. now rewrite IH.
  - clear S. induction s as [|c s IH]; [simpl; lia|].
    simpl. rewrite length_append.
    pose proof (encodeUnit_length c). lia.
Qed.

Section BrowserProfileFacts.

Variable URL_parse : string -> option (string * string).




End BrowserProfileFacts.

(** ** The repository's own tests

    The expectations of env.test.ts and of the env-validation tests, on the
    models. *)

Example buildEnvVars_tests :
  buildEnvVars [] = []
  /\ buildEnvVars [ ("ANTHROPIC_API_KEY", "sk-key");
                    ("OPENCLAW_GATEWAY_TOKEN", "token");
                    ("TELEGRAM_BOT_TOKEN", "tg");
                    ("BRAVE_API_KEY", "brave-key") ]
     = [ ("ANTHROPIC_API_KEY", "sk-key");
         ("OPENCLAW_GATEWAY_TOKEN", "token");
         ("CLAWDBOT_GATEWAY_TOKEN", "token");
         ("TELEGRAM_BOT_TOKEN", "tg");
         ("BRAVE_API_KEY", "brave-key") ]
  /\ (let result :=
        buildEnvVars [ ("AI_GATEWAY_API_KEY", "gateway-key");
                       ("AI_GATEWAY_BASE_URL",
                        "https://gateway.example.com/openai") ] in
      get "OPENAI_BASE_URL" result = Some "https://gateway.example.com/openai"
      /\ get "OPENAI_API_KEY" result = Some "gateway-key"
      /\ get "AI_GATEWAY_API_KEY" result = None)
  /\ (let result :=
        buildEnvVars [ ("OPENCLAW_GATEWAY_TOKEN", "openclaw-token");
                       ("MOLTBOT_GATEWAY_TOKEN", "moltbot-token");
                       ("CLAWDBOT_GATEWAY_TOKEN", "clawdbot-token") ] in
      get "OPENCLAW_GATEWAY_TOKEN" result = Some "openclaw-token"
      /\ get "CLAWDBOT_GATEWAY_TOKEN" result = Some "openclaw-token").
Proof. repeat split; reflexivity. Qed.

Example validateRequiredEnv_tests :
  validateRequiredEnv [ ("DEV_MODE", "true");
                        ("OPENCLAW_GATEWAY_TOKEN", "test-token");
                        ("OPENAI_CODEX_OAUTH", "1") ] = []
  /\ In MISSING_PROVIDER
       (validateRequiredEnv [ ("DEV_MODE", "true");
                              ("OPENCLAW_GATEWAY_TOKEN", "test-token") ])
  /\ validateRequiredEnv [ ("DEV_MODE", "true");
                           ("OPENAI_CODEX_OAUTH", "true") ]
     = [ MISSING_GATEWAY_TOKEN ]
  /\ validateRequiredEnv [ ("DEV_MODE", "true");
                           ("OPENCLAW_GATEWAY_TOKEN", "test-token");
                           ("OPENAI_CODEX_OAUTH", "TRUE") ] = [].
Proof. repeat split; try reflexivity. apply in_eq. Qed.

(** ** The further properties on concrete inputs *)

Import MoreScenarios.

Lemma runCommandWithDetails_result_shape_witness :
  exists r w',
    runCommandWithDetails (scripted noisy) noisyCommand 5000 start = (Ok r, w')
    /\ command r = noisyCommand
    /\ didComplete r = true
    /\ length (calls w') = 3%nat.
Proof.
  edestruct (runCommandWithDetails_result_shape (scripted noisy) noisyCommand
               5000 start) as (Hc & _ & Hd & proc & Ht).
  - vm_compute; reflexivity.
  - eexists _, _. split; [reflexivity|]. split; [exact Hc|].
    split; [reflexivity|reflexivity].
Defined.

Lemma mount_failure_stops_sync_witness :
  run [] false env = (Ok (failure "Failed to mount R2 storage" None),
                      mkWorld 0 [CallMount env] tt).
Proof.
  exact (proj1 (mount_failure_stops_sync (sandboxOf (scriptOf []) false)
                  mountPath stringify env start _ eq_refl eq_refl)).
Defined.

Lemma new_config_first_witness :
  exists w2,
    configStage (scripted staleMarker) stringify
      (snd (call_mountR2Storage (scripted staleMarker) env start))
    = (Normal "/root/.openclaw", w2)
    /\ length (calls w2) = 4%nat.
Proof.
  edestruct (new_config_first (scripted staleMarker) mountPath stringify
               env start) as [H _].
  - split; reflexivity.
  - vm_compute; reflexivity.
  - reflexivity.
  - eexists. split; [exact H|reflexivity].
Defined.

Lemma no_config_found_witness :
  exists d w',
    run [] true env
    = (Ok (failure "Sync aborted: no config file found" (Some d)), w').
Proof.
  edestruct (no_config_found (scripted []) mountPath stringify env start)
    as (rest & w' & H).
  - split; reflexivity.
  - vm_compute; reflexivity.
  - vm_compute; reflexivity.
  - reflexivity.
  - reflexivity.
  - reflexivity.
  - reflexivity.
  - eexists _, _. exact H.
Defined.

Lemma config_probe_exception_witness :
  exists w',
    run probeCannotStart true env
    = (Ok (failure "Failed to verify source files"
             (Some "container stopped")), w').
Proof.
  assert (Hr : reachesConfigStage (scripted probeCannotStart) env start
                 (mkWorld 0 [CallMount env] tt)) by (split; reflexivity).
  destruct (config_probe_exception _ mountPath stringify env start _ Hr)
    as [H _].
  eexists. apply (H (ErrorObj "container stopped")). vm_compute; reflexivity.
Defined.

Lemma unverified_marker_fails_witness :
  exists w',
    run markerMissing true env
    = (Ok (failure "Sync failed"
             (Some "rsync error: some files could not be transferred")), w').
Proof.
  edestruct (unverified_marker_fails (scripted markerMissing) mountPath
               stringify env start) as [H _].
  - eexists. split.
    + eexists. split; [split; reflexivity|vm_compute; reflexivity].
    + vm_compute; reflexivity.
  - vm_compute; reflexivity.
  - vm_compute; reflexivity.
  - vm_compute; reflexivity.
  - vm_compute; reflexivity.
  - vm_compute; reflexivity.
  - reflexivity.
  - edestruct H as (d & Hr & Herr & _).
    + vm_compute; reflexivity.
    + specialize (Herr eq_refl). injection Herr as ->.
      eexists. exact Hr.
Defined.

Lemma syncToR2_result_well_formed_witness :
  exists r w' s,
    run staleMarker true env = (Ok r, w')
    /\ error r = None /\ lastSync r = Some s /\ DatePrefixShape s.
Proof.
  edestruct (syncToR2_result_well_formed (scripted staleMarker) mountPath
               stringify env start) as [H _].
  - vm_compute; reflexivity.
  - destruct (H eq_refl) as (He & _ & s & Hl & Hs).
    eexists _, _, s. split; [vm_compute; reflexivity|]. auto.
Defined.

Lemma early_failure_starts_no_pipeline_witness :
  exists r w' tr,
    run silentRsyncCheck true env = (Ok r, w')
    /\ calls w' = (calls start ++ tr)%list
    /\ ~ In syncCommand (startedCommands tr).
Proof.
  edestruct (early_failure_starts_no_pipeline (scripted silentRsyncCheck)
               mountPath stringify env start)
    as (tr & Ht & _ & Hn).
  - vm_compute; reflexivity.
  - reflexivity.
  - do 6 apply in_cons. apply in_eq.
  - eexists _, _, tr. split; [vm_compute; reflexivity|].
    split; [exact Ht|apply Hn].
Defined.

Lemma isTruthyFlag_ignores_case_and_space_witness :
  isTruthyFlag (Some "TRUE") = isTruthyFlag (Some "true")
  /\ isTruthyFlag (Some (" " ++ "1" ++ newline)) = isTruthyFlag (Some "1").
Proof.
  destruct isTruthyFlag_ignores_case_and_space as (Hc & Hs & _).
  split.
  - apply Hc. reflexivity.
  - apply Hs; reflexivity.
Defined.

Lemma buildEnvVars_passes_known_names_only_witness :
  In "ANTHROPIC_BASE_URL" containerKeys.
Proof.
  exact (proj1 (buildEnvVars_passes_known_names_only anthropicGatewayEnv)
           "ANTHROPIC_BASE_URL" "https://gateway.example.com/anthropic"
           eq_refl).
Defined.

Lemma buildEnvVars_passes_through_witness :
  get "TELEGRAM_BOT_TOKEN" (buildEnvVars directEnv) = Some "tg".
Proof.
  apply (proj1 (buildEnvVars_passes_through directEnv) "TELEGRAM_BOT_TOKEN").
  do 4 apply in_cons. apply in_eq.
Defined.

Lemma buildEnvVars_legacy_gateway_witness :
  get "ANTHROPIC_BASE_URL" (buildEnvVars anthropicGatewayEnv)
  = Some "https://gateway.example.com/anthropic"
  /\ get "ANTHROPIC_API_KEY" (buildEnvVars anthropicGatewayEnv)
     = Some "gateway-key".
Proof.
  destruct (buildEnvVars_legacy_gateway anthropicGatewayEnv "gateway-key"
              "https://gateway.example.com/anthropic///"
              eq_refl eq_refl eq_refl eq_refl) as (_ & H & _).
  destruct (H eq_refl) as (H1 & H2 & _). split; assumption.
Defined.

Lemma buildEnvVars_without_legacy_gateway_witness :
  get "AI_GATEWAY_BASE_URL" (buildEnvVars directEnv) = None.
Proof.
  exact (proj1 (buildEnvVars_without_legacy_gateway directEnv eq_refl)).
Defined.

Lemma buildEnvVars_values_not_empty_witness :
  get "ANTHROPIC_API_KEY" (buildEnvVars directEnv) = Some "sk-key"
  /\ "sk-key" <> EmptyString.
Proof.
  split; [reflexivity|].
  apply (proj1 (buildEnvVars_values_not_empty directEnv))
    with (k := "ANTHROPIC_API_KEY"); [|reflexivity].
  intros baseUrl H. discriminate H.
Defined.

Lemma empty_preferred_token_hides_legacy_witness :
  In MISSING_GATEWAY_TOKEN (validateRequiredEnv emptyTokenEnv)
  /\ get "OPENCLAW_GATEWAY_TOKEN" (buildEnvVars emptyTokenEnv) = None.
Proof.
  destruct (empty_preferred_token_hides_legacy emptyTokenEnv eq_refl)
    as (H1 & H2 & _).
  split; assumption.
Defined.

Lemma validated_env_reaches_container_witness :
  exists token,
    get "OPENCLAW_GATEWAY_TOKEN" (buildEnvVars directEnv) = Some token
    /\ nonEmpty token = true.
Proof.
  destruct (validated_env_reaches_container directEnv eq_refl)
    as [(token & Hn & Ht & _) _].
  exists token. auto.
Defined.

Lemma encodeURIComponent_query_safe_witness :
  encodeURIComponent "Secret-42_ok" = "Secret-42_ok"
  /\ ~ In "%"%char [ "&"; "="; "?"; "#"; "/"; "+"; " " ]%char.
Proof.
  destruct (encodeURIComponent_query_safe "Secret-42_ok") as (_ & _ & H & _).
  destruct (encodeURIComponent_query_safe "a+b") as (_ & N & _).
  split.
  - apply H. reflexivity.
  - apply (N "a" "%"%char "2Bb"). reflexivity.
Defined.

